(** * Topology renderer (lab2/images/main.py)

    A shallow embedding of the script that draws the linear, ring and star
    topologies with networkx and matplotlib, and the properties of the graphs,
    layouts, files and console output it produces.

    Python integers are [Z], Python floats are idealised as real numbers [R],
    dictionaries whose insertion order is observable are association lists,
    the file system is a finite map from file names to figures. *)

From Stdlib Require Import Reals Lra.
From stdpp Require Import gmap strings list pretty.

Local Open Scope Z_scope.

(** ** Insertion-ordered dictionaries with integer keys *)

Section dict.
Context {V : Type}.

(** [d.get(k)] *)
Fixpoint dict_get (d : list (Z * V)) (k : Z) : option V :=
  match d with
  | [] => None
  | (k', v) :: d' => if Z.eqb k' k then Some v else dict_get d' k
  end.

(** [d[k] = v]: an existing key keeps its place, a new key goes last. *)
Fixpoint dict_set (d : list (Z * V)) (k : Z) (v : V) : list (Z * V) :=
  match d with
  | [] => [(k, v)]
  | (k', v') :: d' =>
      if Z.eqb k' k then (k, v) :: d' else (k', v') :: dict_set d' k v
  end.
End dict.

(** ** The part of networkx the script uses *)

Module nx.

(** [nx.Graph]: the node dictionary [_node] (its keys, in insertion order)
    and the adjacency dictionary [_adj] (for each node, its neighbours in
    insertion order).  Node and edge attribute dictionaries stay empty in
    this program and are left out. *)
Record Graph := mkGraph {
  nodes : list Z;
  adj : list (Z * list Z)
}.

(** [nx.Graph()] *)
Definition empty : Graph := {| nodes := []; adj := [] |}.

Definition mem (u : Z) (l : list Z) : bool := existsb (Z.eqb u) l.

(** [if u not in self._node: self._adj[u] = {}; self._node[u] = {}] *)
Definition add_node_if_new (u : Z) (g : Graph) : Graph :=
  if mem u (nodes g) then g
  else {| nodes := nodes g ++ [u]; adj := dict_set (adj g) u [] |}.

(** [G[u]]: the neighbours of [u] ([G.has_edge] and [G.degree] treat a
    node that is not in the graph as one without neighbours). *)
Definition neighbors (g : Graph) (u : Z) : list Z :=
  default [] (dict_get (adj g) u).

(** [self._adj[u][v] = datadict] *)
Definition set_adj (u v : Z) (g : Graph) : Graph :=
  let nbrs := neighbors g u in
  {| nodes := nodes g;
     adj := dict_set (adj g) u (if mem v nbrs then nbrs else nbrs ++ [v]) |}.

(** One iteration of the loop of [add_edges_from]. *)
Definition add_edge (g : Graph) (e : Z * Z) : Graph :=
  let '(u, v) := e in
  set_adj v u (set_adj u v (add_node_if_new v (add_node_if_new u g))).

(** [G.add_edges_from(edges)] *)
Definition add_edges_from (edges : list (Z * Z)) (g : Graph) : Graph :=
  fold_left add_edge edges g.

(** [len(G)] *)
Definition len (g : Graph) : nat := length (nodes g).

(** [G.has_edge(u, v)] *)
Definition has_edge (g : Graph) (u v : Z) : bool := mem v (neighbors g u).

(** [G.degree[u]] (the graphs of this program have no self-loops, which
    networkx would count twice). *)
Definition degree (g : Graph) (u : Z) : nat :=
  length (neighbors g u) + (if mem u (neighbors g u) then 1 else 0)%nat.

(** [list(G.edges())]: every undirected edge once, reported from the
    endpoint that comes first in node order. *)
Fixpoint edges_from (g : Graph) (todo seen : list Z) : list (Z * Z) :=
  match todo with
  | [] => []
  | n :: todo' =>
      map (pair n) (filter (fun v => negb (mem v seen)) (neighbors g n))
      ++ edges_from g todo' (seen ++ [n])
  end.

Definition edges (g : Graph) : list (Z * Z) := edges_from g (nodes g) [].

(** *** Layouts: a dictionary from node to a point of the plane *)

Definition point : Type := R * R.
Definition layout : Type := list (Z * point).

(** A point given by two Python integers, as in [(4, 0)]. *)
Definition xy (x y : Z) : point := (IZR x, IZR y).

Definition Rsum (l : list R) : R := fold_right Rplus 0%R l.
Definition Rmaximum (l : list R) : R := fold_right Rmax 0%R l.

(** [pos.mean(axis=0)] for a non-empty array of rows. *)
Definition mean (pts : list point) : point :=
  let n := INR (length pts) in
  ((Rsum (map fst pts) / n)%R, (Rsum (map snd pts) / n)%R).

(** [np.abs(pos).max()] *)
Definition abs_max (pts : list point) : R :=
  Rmaximum (flat_map (fun p => [Rabs (fst p); Rabs (snd p)]) pts).

(** [rescale_layout(pos, scale)]:
    [pos -= pos.mean(axis=0); lim = np.abs(pos).max();
     if lim > 0: pos *= scale / lim] *)
Definition rescale_layout (pts : list point) (scale : R) : list point :=
  let m := mean pts in
  let pts := map (fun p => ((fst p - fst m)%R, (snd p - snd m)%R)) pts in
  let lim := abs_max pts in
  if Rlt_dec 0 lim
  then map (fun p => ((fst p * (scale / lim))%R, (snd p * (scale / lim))%R)) pts
  else pts.

(** [np.linspace(0, 1, n + 1)[:-1] * 2 * np.pi] *)
Definition theta (n : nat) : list R :=
  map (fun k => (INR k * (1 / INR n) * 2 * PI)%R) (seq 0 n).

(** [nx.circular_layout(G)] with the default [scale=1], [center=(0, 0)];
    numpy's floating-point arithmetic is read as arithmetic on the reals. *)
Definition circular_layout (g : Graph) : layout :=
  let center : point := (0%R, 0%R) in
  match nodes g with
  | [] => []
  | [v] => [(v, center)]
  | _ =>
      let pts := map (fun t => (cos t, sin t)) (theta (len g)) in
      let pts := map (fun p => ((fst p + fst center)%R, (snd p + snd center)%R))
                     (rescale_layout pts 1) in
      combine (nodes g) pts
  end.

End nx.

(** ** draw_topology, lines 5 to 26: the graph and the layout

    The local variable [pos] is bound on three of the four paths through the
    conditional; [None] is the unbound local. *)

Record locals := mkLocals {
  G : nx.Graph;
  pos : option nx.layout
}.

Definition draw_topology_locals (graph_type : string) : locals :=
  let G := nx.empty in
  if String.eqb graph_type "linear" then
    let edges := [(0, 1); (1, 2); (2, 3); (3, 4)] in
    let G := nx.add_edges_from edges G in
    {| G := G;
       pos := Some [(0, nx.xy 4 0); (1, nx.xy 3 1); (2, nx.xy 2 2); (3, nx.xy 1 1); (4, nx.xy 0 0)] |}
  else if String.eqb graph_type "ring" then
    let edges := [(0, 1); (1, 2); (2, 3); (3, 4); (4, 0)] in
    let G := nx.add_edges_from edges G in
    {| G := G; pos := Some (nx.circular_layout G) |}
  else if String.eqb graph_type "star" then
    let edges := [(0, 1); (0, 2); (0, 3); (0, 4)] in
    let G := nx.add_edges_from edges G in
    {| G := G;
       pos := Some [(0, nx.xy 0 0); (1, nx.xy 1 1); (2, nx.xy 1 (-1)); (3, nx.xy (-1) (-1)); (4, nx.xy (-1) 1)] |}
  else {| G := G; pos := None |}.

Definition graph_of (graph_type : string) : nx.Graph := G (draw_topology_locals graph_type).
Definition layout_of (graph_type : string) : option nx.layout := pos (draw_topology_locals graph_type).

(** ** Exceptions, the world, and the monad of the script *)

Inductive exn :=
| UnboundLocalError (name : string)   (* a local variable read before it is bound *)
| NetworkXError (msg : string)        (* raised by the networkx drawing functions *)
| KeyError (key : Z)                  (* a dictionary read at a missing key *)
| LibraryError (class : string).      (* raised inside matplotlib or by the system *)

(** The name of the exception's class. *)
Definition exn_class (e : exn) : string :=
  match e with
  | UnboundLocalError _ => "UnboundLocalError"
  | NetworkXError _ => "NetworkXError"
  | KeyError _ => "KeyError"
  | LibraryError c => c
  end.

Module plt.

(** What a drawing call leaves on an [Axes]. *)
Inductive artist :=
| PathCollection (offsets : list nx.point) (s : Z) (c : string)
| LineCollection (segments : list (nx.point * nx.point)) (linewidths : Z) (colors : string)
| Text (at_ : nx.point) (s : string) (size : Z) (family : string).

Record Axes := mkAxes {
  artists : list artist;
  title : string;
  axison : bool
}.

(** A fresh [Axes]. *)
Definition new_axes : Axes := {| artists := []; title := ""; axison := true |}.

(** A [Figure] refers to its [Axes], which the script mutates after the
    figure is created. *)
Record Figure := mkFigure {
  figsize : Z * Z;
  fig_ax : nat
}.

(** The logical content of a saved image. *)
Record Image := mkImage {
  img_size : Z * Z;
  img_axes : Axes
}.

End plt.

(** The calls that leave the script, and what an observer sees of a run. *)
Inductive call :=
| Csubplots (figsize : Z * Z)
| Cdraw_networkx_nodes
| Cdraw_networkx_edges
| Cdraw_networkx_labels
| Cset_title (label : string)
| Caxis (arg : string)
| Csavefig (fname : string)
| Cprint (line : string).

Inductive event :=
| Enter_draw_topology (graph_type title : string)
| Call (c : call).

Record World := mkWorld {
  heap : list plt.Axes;               (* the Axes objects, by reference *)
  files : gmap string plt.Image;      (* the working directory *)
  stdout : list string;               (* the lines printed so far *)
  trace : list event                  (* everything attempted so far *)
}.

(** The world in which a run starts: whatever files are already there,
    nothing allocated, printed or attempted. *)
Definition initial_world (fs : gmap string plt.Image) : World :=
  {| heap := []; files := fs; stdout := []; trace := [] |}.

Inductive result (A : Type) :=
| Ok (a : A)
| Raise (e : exn).
Arguments Ok {A} a.
Arguments Raise {A} e.

Definition M (A : Type) : Type := World -> result A * World.

Definition ret {A} (a : A) : M A := fun w => (Ok a, w).
Definition raise {A} (e : exn) : M A := fun w => (Raise e, w).
Definition bind {A B} (m : M A) (k : A -> M B) : M B :=
  fun w => match m w with
           | (Ok a, w') => k a w'
           | (Raise e, w') => (Raise e, w')
           end.

Declare Scope py_scope.
Delimit Scope py_scope with py.
Notation "'let*' x ':=' m 'in' k" := (bind m (fun x => k))
  (at level 10, x pattern, k at level 200) : py_scope.
Notation "m ;; k" := (bind m (fun _ => k))
  (at level 100, right associativity) : py_scope.
Local Open Scope py_scope.

Definition get_world : M World := fun w => (Ok w, w).
Definition log (e : event) : M unit :=
  fun w => (Ok tt, {| heap := heap w; files := files w; stdout := stdout w;
                      trace := trace w ++ [e] |}).

(** [for x in l: body(x)] *)
Fixpoint for_each {A} (l : list A) (body : A -> M unit) : M unit :=
  match l with
  | [] => ret tt
  | x :: l' => body x;; for_each l' body
  end.

(** [[f(x) for x in l]] *)
Fixpoint list_comp {A B} (f : A -> result B) (l : list A) : result (list B) :=
  match l with
  | [] => Ok []
  | x :: l' =>
      match f x with
      | Raise e => Raise e
      | Ok y => match list_comp f l' with
                | Raise e => Raise e
                | Ok ys => Ok (y :: ys)
                end
      end
  end.

Definition lift {A} (r : result A) : M A := fun w => (r, w).

(** [pos[v]] *)
Definition pos_get (pos : nx.layout) (v : Z) : result nx.point :=
  match dict_get pos v with
  | Some p => Ok p
  | None => Raise (KeyError v)
  end.

Section script.

(** The environment: whether a call into a library fails for a reason of
    its own (a backend error, a full disk, a closed stream), given what has
    happened so far. *)
Variable fault : call -> World -> option exn.

(** Entering a library call: it is recorded, and the environment may make
    it fail. *)
Definition enter (c : call) : M unit :=
  fun w =>
    let w' := {| heap := heap w; files := files w; stdout := stdout w;
                 trace := trace w ++ [Call c] |} in
    match fault c w with
    | Some e => (Raise e, w')
    | None => (Ok tt, w')
    end.

(** Mutating the [Axes] behind a reference. *)
Definition update_ax (ax : nat) (f : plt.Axes -> plt.Axes) : M unit :=
  fun w => (Ok tt, {| heap := alter f ax (heap w); files := files w;
                      stdout := stdout w; trace := trace w |}).

Definition add_artist (ax : nat) (a : plt.artist) : M unit :=
  update_ax ax (fun x => {| plt.artists := plt.artists x ++ [a];
                            plt.title := plt.title x;
                            plt.axison := plt.axison x |}).

(** [plt.subplots(figsize=...)]: a new figure with one new [Axes]. *)
Definition plt_subplots (figsize : Z * Z) : M (plt.Figure * nat) :=
  enter (Csubplots figsize);;
  let* w := get_world in
  let ax := length (heap w) in
  (fun w => (Ok tt, {| heap := heap w ++ [plt.new_axes]; files := files w;
                       stdout := stdout w; trace := trace w |}));;
  ret ({| plt.figsize := figsize; plt.fig_ax := ax |}, ax).

(** [nx.draw_networkx_nodes(G, pos, node_size=, node_color=, ax=)] *)
Definition nx_draw_networkx_nodes (G : nx.Graph) (pos : nx.layout)
    (node_size : Z) (node_color : string) (ax : nat) : M unit :=
  enter Cdraw_networkx_nodes;;
  let nodelist := nx.nodes G in
  match nodelist with
  | [] => ret tt
  | _ =>
      match list_comp (pos_get pos) nodelist with
      | Raise (KeyError v) =>
          raise (NetworkXError ("Node " +:+ pretty v +:+ " has no position."))
      | Raise e => raise e
      | Ok xy => add_artist ax (plt.PathCollection xy node_size node_color)
      end
  end.

(** [nx.draw_networkx_edges(G, pos, width=, edge_color=, ax=)] *)
Definition nx_draw_networkx_edges (G : nx.Graph) (pos : nx.layout)
    (width : Z) (edge_color : string) (ax : nat) : M unit :=
  enter Cdraw_networkx_edges;;
  let edgelist := nx.edges G in
  match edgelist with
  | [] => ret tt
  | _ =>
      let* edge_pos := lift (list_comp
                    (fun e => match pos_get pos (fst e), pos_get pos (snd e) with
                              | Ok p, Ok q => Ok (p, q)
                              | Raise x, _ => Raise x
                              | _, Raise x => Raise x
                              end) edgelist) in
      add_artist ax (plt.LineCollection edge_pos width edge_color)
  end.

(** [nx.draw_networkx_labels(G, pos, font_size=, font_family=, ax=)]: the
    label of a node is its number. *)
Definition nx_draw_networkx_labels (G : nx.Graph) (pos : nx.layout)
    (font_size : Z) (font_family : string) (ax : nat) : M unit :=
  enter Cdraw_networkx_labels;;
  for_each (nx.nodes G) (fun n =>
    let* p := lift (pos_get pos n) in
    add_artist ax (plt.Text p (pretty n) font_size font_family)).

(** [ax.set_title(title)] *)
Definition ax_set_title (ax : nat) (title : string) : M unit :=
  enter (Cset_title title);;
  update_ax ax (fun x => {| plt.artists := plt.artists x; plt.title := title;
                            plt.axison := plt.axison x |}).

(** [ax.axis('off')] *)
Definition ax_axis_off (ax : nat) : M unit :=
  enter (Caxis "off");;
  update_ax ax (fun x => {| plt.artists := plt.artists x; plt.title := plt.title x;
                            plt.axison := false |}).

(** [fig.savefig(fname)]: the file holds the figure as it is now; a file
    of that name is replaced. *)
Definition fig_savefig (fig : plt.Figure) (fname : string) : M unit :=
  enter (Csavefig fname);;
  fun w =>
    let img := {| plt.img_size := plt.figsize fig;
                  plt.img_axes := default plt.new_axes (heap w !! plt.fig_ax fig) |} in
    (Ok tt, {| heap := heap w; files := <[fname := img]> (files w);
               stdout := stdout w; trace := trace w |}).

(** [print(line)] *)
Definition print (line : string) : M unit :=
  enter (Cprint line);;
  fun w => (Ok tt, {| heap := heap w; files := files w;
                      stdout := stdout w ++ [line]; trace := trace w |}).

(** [draw_topology(graph_type, title, ax)] *)
Definition draw_topology (graph_type title : string) (ax : nat) : M unit :=
  log (Enter_draw_topology graph_type title);;
  let l := draw_topology_locals graph_type in
  let G := G l in
  match pos l with
  | None => raise (UnboundLocalError "pos")
  | Some pos =>
      nx_draw_networkx_nodes G pos 700 "lightblue" ax;;
      nx_draw_networkx_edges G pos 2 "gray" ax;;
      nx_draw_networkx_labels G pos 12 "sans-serif" ax;;
      ax_set_title ax title;;
      ax_axis_off ax
  end.

(** The script, lines 36 to 52. *)
Definition main : M unit :=
  let* (fig1, ax1) := plt_subplots (5, 5) in
  draw_topology "linear" "Linear Topology" ax1;;
  fig_savefig fig1 "linear_topology.png";;
  print "Saved linear_topology.png";;
  let* (fig2, ax2) := plt_subplots (5, 5) in
  draw_topology "ring" "Ring Topology" ax2;;
  fig_savefig fig2 "ring_topology.png";;
  print "Saved ring_topology.png";;
  let* (fig3, ax3) := plt_subplots (5, 5) in
  draw_topology "star" "Star Topology" ax3;;
  fig_savefig fig3 "star_topology.png";;
  print "Saved star_topology.png".

(** One of the three paragraphs of the script: a new figure, the drawing,
    the file, the confirmation line. *)
Definition render_and_save (graph_type title fname : string) : M unit :=
  let* (fig, ax) := plt_subplots (5, 5) in
  draw_topology graph_type title ax;;
  fig_savefig fig fname;;
  print ("Saved " +:+ fname).

End script.

(** The environment in which no library call fails. *)
Definition no_fault : call -> World -> option exn := fun _ _ => None.

(** An environment in which writing [ring_topology.png] fails. *)
Definition ring_write_fails : call -> World -> option exn :=
  fun c _ =>
    match c with
    | Csavefig fname =>
        if String.eqb fname "ring_topology.png"
        then Some (LibraryError "OSError") else None
    | _ => None
    end.

(** ** The notions the properties are stated with *)

(** The values of [graph_type] that the conditional of [draw_topology]
    recognises. *)
Definition variants : list string := ["linear"; "ring"; "star"].

(** The edge sets as the specification lists them. *)
Definition spec_edges (graph_type : string) : list (Z * Z) :=
  if String.eqb graph_type "linear" then [(0, 1); (1, 2); (2, 3); (3, 4)]
  else if String.eqb graph_type "ring" then [(0, 1); (1, 2); (2, 3); (3, 4); (4, 0)]
  else if String.eqb graph_type "star" then [(0, 1); (0, 2); (0, 3); (0, 4)]
  else [].

(** An undirected edge is in a list of pairs in either orientation. *)
Definition undirected_in (u v : Z) (es : list (Z * Z)) : Prop :=
  In (u, v) es \/ In (v, u) es.

Definition adjacent (g : nx.Graph) (u v : Z) : Prop := nx.has_edge g u v = true.

(** [walk g u p]: starting at [u], every node of [p] is adjacent to the one
    before it. *)
Fixpoint walk (g : nx.Graph) (u : Z) (p : list Z) : Prop :=
  match p with
  | [] => True
  | v :: p' => adjacent g u v /\ walk g v p'
  end.

(** Where a walk from [u] through [p] ends. *)
Fixpoint walk_end (u : Z) (p : list Z) : Z :=
  match p with
  | [] => u
  | v :: p' => walk_end v p'
  end.

(** A cycle: at least three nodes, all different, each adjacent to the next
    and the last adjacent to the first. *)
Definition is_cycle (g : nx.Graph) (c : list Z) : Prop :=
  match c with
  | [] => False
  | v0 :: p =>
      (3 <= length c)%nat /\ NoDup c /\ walk g v0 p /\ adjacent g (walk_end v0 p) v0
  end.

Definition cyclic (g : nx.Graph) : Prop := exists c, is_cycle g c.

(** Connected: a path of edges between any two nodes of the graph. *)
Definition connected (g : nx.Graph) : Prop :=
  forall u v, In u (nx.nodes g) -> In v (nx.nodes g) -> rtc (adjacent g) u v.

(** A layout covers a graph when every node of the graph has a position. *)
Definition covers (pos : nx.layout) (g : nx.Graph) : Prop :=
  forall v, In v (nx.nodes g) -> exists p, dict_get pos v = Some p.

(** The two steps of [rescale_layout] named: the rows minus their mean, and
    the factor the rows are then multiplied by. *)
Definition centered (pts : list nx.point) : list nx.point :=
  map (fun p => ((fst p - fst (nx.mean pts))%R, (snd p - snd (nx.mean pts))%R)) pts.

Definition factor (pts : list nx.point) : R :=
  if Rlt_dec 0 (nx.abs_max (centered pts))
  then (1 / nx.abs_max (centered pts))%R else 1%R.

(** The names of the files that [savefig] was asked to write, in order. *)
Fixpoint saved_names (tr : list event) : list string :=
  match tr with
  | [] => []
  | Call (Csavefig fname) :: tr' => fname :: saved_names tr'
  | _ :: tr' => saved_names tr'
  end.

(** [m0] is what [m] does whenever [m] returns normally. *)
Definition succeeds_as {A} (m m0 : M A) : Prop :=
  forall w a w', m w = (Ok a, w') -> m0 w = (Ok a, w').

(** [m] keeps [I], whether it returns normally or raises. *)
Definition preserves {A} (I : World -> Prop) (m : M A) : Prop :=
  forall w, I w -> I (snd (m w)).

(** [m] touches neither the files, nor the console, nor the trace. *)
Definition quiet {A} (m : M A) : Prop :=
  forall w, files (snd (m w)) = files w /\ stdout (snd (m w)) = stdout w /\
            trace (snd (m w)) = trace w.

(** The events that belong to the star topology: entering its render,
    writing its file, printing its confirmation line. *)
Definition star_event (ev : event) : bool :=
  match ev with
  | Enter_draw_topology graph_type _ => String.eqb graph_type "star"
  | Call (Csavefig fname) => String.eqb fname "star_topology.png"
  | Call (Cprint line) => String.eqb line "Saved star_topology.png"
  | Call _ => false
  end.

(** Nothing of the star topology has happened in [w], a world of a run that
    started with the files [fs]. *)
Definition star_untouched (fs : gmap string plt.Image) (w : World) : Prop :=
  files w !! "star_topology.png" = fs !! "star_topology.png" /\
  ~ In "Saved star_topology.png" (stdout w) /\
  forallb (fun ev => negb (star_event ev)) (trace w) = true.

(** [m] stays on the axes [ax]: whatever its outcome, it writes no file,
    prints nothing, creates no axes and leaves every other axes as it was. *)
Definition ax_local {A} (ax : nat) (m : M A) : Prop :=
  forall w,
    files (snd (m w)) = files w /\ stdout (snd (m w)) = stdout w /\
    length (heap (snd (m w))) = length (heap w) /\
    forall i, i <> ax -> heap (snd (m w)) !! i = heap w !! i.




(** The names of the three files of the script. *)
Definition output_names : list string :=
  ["linear_topology.png"; "ring_topology.png"; "star_topology.png"].

(** [m] writes no file but those in [names], whatever its outcome. *)
Definition writes_only {A} (names : list string) (m : M A) : Prop :=
  forall w k, ~ In k names -> files (snd (m w)) !! k = files w !! k.

(** [m] raises only what a library call raised, and stops at that call. *)
Definition fails_only_by_fault {A} (fault : call -> World -> option exn)
    (m : M A) : Prop :=
  forall w e w', m w = (Raise e, w') ->
    exists c w0, fault c w0 = Some e /\ trace w' = trace w0 ++ [Call c].




(** What lines 29 to 34 and 37 put into a saved figure: a 5 by 5 figure
    with the title, the axis off, and, in this order, the node collection
    (size 700, light blue) over five positions, the edge collection (width 2,
    gray) with one segment per edge, and the labels 0 to 4 (size 12,
    sans-serif) at the five positions. *)
Definition is_topology_figure (title : string) (n_edges : nat)
    (img : plt.Image) : Prop :=
  plt.img_size img = (5, 5) /\
  plt.title (plt.img_axes img) = title /\
  plt.axison (plt.img_axes img) = false /\
  exists (p0 p1 p2 p3 p4 : nx.point) (segs : list (nx.point * nx.point)),
    length segs = n_edges /\
    plt.artists (plt.img_axes img) =
      [plt.PathCollection [p0; p1; p2; p3; p4] 700 "lightblue";
       plt.LineCollection segs 2 "gray";
       plt.Text p0 "0" 12 "sans-serif"; plt.Text p1 "1" 12 "sans-serif";
       plt.Text p2 "2" 12 "sans-serif"; plt.Text p3 "3" 12 "sans-serif";
       plt.Text p4 "4" 12 "sans-serif"].

(** The axes [x] holds the drawing of the graph [g] laid out by [pos], and
    nothing else: the node collection over the positions of the nodes of [g],
    in the order of the nodes; the edge collection with one segment per edge
    of [g], from the position of one end to the position of the other; one
    label per node, the number of the node at the position of the node; the
    title; the axis off. *)
Definition drawing_of (g : nx.Graph) (pos : nx.layout) (title : string)
    (x : plt.Axes) : Prop :=
  exists (pts : list nx.point) (segs : list (nx.point * nx.point)),
    Forall2 (fun v p => dict_get pos v = Some p) (nx.nodes g) pts /\
    Forall2 (fun e s => dict_get pos (fst e) = Some (fst s) /\
                        dict_get pos (snd e) = Some (snd s)) (nx.edges g) segs /\
    plt.artists x =
      plt.PathCollection pts 700 "lightblue" ::
      plt.LineCollection segs 2 "gray" ::
      zip_with (fun v p => plt.Text p (pretty v) 12 "sans-serif") (nx.nodes g) pts /\
    plt.title x = title /\
    plt.axison x = false.

(** The image [img] is the 5 by 5 figure of the topology [graph_type]: the
    drawing of the graph and of the layout that [draw_topology] binds for
    [graph_type]. *)
Definition is_figure_of (graph_type title : string) (img : plt.Image) : Prop :=
  plt.img_size img = (5, 5) /\
  exists pos, layout_of graph_type = Some pos /\
              drawing_of (graph_of graph_type) pos title (plt.img_axes img).

(** The failures that [draw_topology] produces itself, as opposed to those
    that the environment produces inside a library call: reading [pos]
    before it is bound, and a node without a position in a draw call. *)
Definition own_failure (e : exn) : bool :=
  match e with
  | UnboundLocalError _ => true
  | NetworkXError _ => true
  | KeyError _ => true
  | LibraryError _ => false
  end.

(** The adjacency dictionary of [g] has entries for nodes of [g] only. *)
Definition well_keyed (g : nx.Graph) : Prop :=
  forall k, ~ In k (nx.nodes g) -> dict_get (nx.adj g) k = None.

(** The endpoints of a list of edges, in the order they are met. *)
Definition endpoints (es : list (Z * Z)) : list Z :=
  flat_map (fun e => [fst e; snd e]) es.

(** * Properties *)

(** ** The graphs *)

Example linear_nodes : nx.nodes (graph_of "linear") = [0; 1; 2; 3; 4].
Proof. reflexivity. Qed.
Example linear_adj : nx.adj (graph_of "linear") =
  [(0, [1]); (1, [0; 2]); (2, [1; 3]); (3, [2; 4]); (4, [3])].
Proof. reflexivity. Qed.
Example ring_nodes : nx.nodes (graph_of "ring") = [0; 1; 2; 3; 4].
Proof. reflexivity. Qed.
Example star_nodes : nx.nodes (graph_of "star") = [0; 1; 2; 3; 4].
Proof. reflexivity. Qed.
Example ring_adj : nx.adj (graph_of "ring") =
  [(0, [1; 4]); (1, [0; 2]); (2, [1; 3]); (3, [2; 4]); (4, [3; 0])].
Proof. reflexivity. Qed.
Example linear_edges : nx.edges (graph_of "linear") = [(0, 1); (1, 2); (2, 3); (3, 4)].
Proof. reflexivity. Qed.
Example ring_edges : nx.edges (graph_of "ring") = [(0, 1); (0, 4); (1, 2); (2, 3); (3, 4)].
Proof. reflexivity. Qed.
Example star_adj : nx.adj (graph_of "star") =
  [(0, [1; 2; 3; 4]); (1, [0]); (2, [0]); (3, [0]); (4, [0])].
Proof. reflexivity. Qed.

Example star_edges : nx.edges (graph_of "star") = [(0, 1); (0, 2); (0, 3); (0, 4)].
Proof. reflexivity. Qed.
Example unknown_graph_empty : graph_of "mesh" = nx.empty.
Proof. reflexivity. Qed.

Lemma variants_cases (graph_type : string) :
  In graph_type variants ->
  graph_type = "linear" \/ graph_type = "ring" \/ graph_type = "star".
Proof. unfold variants; simpl; intuition auto. Qed.

(** Case analysis on which nodes two integers are, driven by the
    comparisons that [has_edge] makes on a concrete graph. *)
Ltac split_eqb :=
  repeat match goal with
         | |- context [Z.eqb ?a ?b] =>
             destruct (Z.eqb_spec a b); subst; cbn -[Z.eqb]
         | H : context [Z.eqb ?a ?b] |- _ =>
             destruct (Z.eqb_spec a b); subst; cbn -[Z.eqb] in H
         end.

Lemma linear_adjacent (u v : Z) :
  adjacent (graph_of "linear") u v <->
  0 <= u <= 4 /\ 0 <= v <= 4 /\ (v = u + 1 \/ u = v + 1).
Proof.
  unfold adjacent, nx.has_edge, nx.neighbors, nx.mem; rewrite linear_adj; cbn -[Z.eqb]. split.
  - intros H. split_eqb; try discriminate; lia.
  - intros (Hu & Hv & Huv).
    assert (Hc : u = 0 \/ u = 1 \/ u = 2 \/ u = 3 \/ u = 4) by lia.
    destruct Hc as [-> | [-> | [-> | [-> | ->]]]];
      destruct Huv as [-> | E]; simpl; try reflexivity; try lia;
      assert (Hd : v = 0 \/ v = 1 \/ v = 2 \/ v = 3) by lia;
      destruct Hd as [-> | [-> | [-> | ->]]]; simpl; reflexivity || lia.
Qed.

Lemma ring_adjacent (u v : Z) :
  adjacent (graph_of "ring") u v <->
  0 <= u <= 4 /\ 0 <= v <= 4 /\
  (v = u + 1 \/ u = v + 1 \/ (u = 4 /\ v = 0) \/ (u = 0 /\ v = 4)).
Proof.
  unfold adjacent, nx.has_edge, nx.neighbors, nx.mem; rewrite ring_adj; cbn -[Z.eqb]. split.
  - intros H. split_eqb; try discriminate; lia.
  - intros (Hu & Hv & Huv).
    assert (Hc : u = 0 \/ u = 1 \/ u = 2 \/ u = 3 \/ u = 4) by lia.
    assert (Hd : v = 0 \/ v = 1 \/ v = 2 \/ v = 3 \/ v = 4) by lia.
    destruct Hc as [-> | [-> | [-> | [-> | ->]]]];
      destruct Hd as [-> | [-> | [-> | [-> | ->]]]]; simpl; reflexivity || lia.
Qed.

Lemma star_adjacent (u v : Z) :
  adjacent (graph_of "star") u v <->
  (u = 0 /\ 1 <= v <= 4) \/ (v = 0 /\ 1 <= u <= 4).
Proof.
  unfold adjacent, nx.has_edge, nx.neighbors, nx.mem; rewrite star_adj; cbn -[Z.eqb]. split.
  - intros H. split_eqb; try discriminate; lia.
  - intros [[-> Hv] | [-> Hu]].
    + assert (Hd : v = 1 \/ v = 2 \/ v = 3 \/ v = 4) by lia.
      destruct Hd as [-> | [-> | [-> | ->]]]; reflexivity.
    + assert (Hd : u = 1 \/ u = 2 \/ u = 3 \/ u = 4) by lia.
      destruct Hd as [-> | [-> | [-> | ->]]]; reflexivity.
Qed.

Ltac in_cases H := simpl in H; repeat destruct H as [H | H]; try contradiction.

(** Finding a concrete pair in one of the two orientations of a concrete
    list of edges. *)
Ltac scan_edges := repeat first [left; reflexivity | right].
Ltac pick_edge := solve [left; scan_edges | right; scan_edges].
Ltac same_edges :=
  let H := fresh "H" in
  unfold undirected_in; simpl; split;
  intros [H | H]; in_cases H; inversion H; subst; pick_edge.

(** C3.  For each of the three variants the graph that [draw_topology]
    builds has exactly five nodes, and they are 0, 1, 2, 3 and 4. *)
Theorem graph_has_five_nodes_0_to_4 (graph_type : string) :
  In graph_type variants ->
  nx.nodes (graph_of graph_type) = [0; 1; 2; 3; 4] /\
  nx.len (graph_of graph_type) = 5%nat /\
  (forall v, In v (nx.nodes (graph_of graph_type)) <-> 0 <= v <= 4).
Proof.
  intros Hv.
  assert (Hn : nx.nodes (graph_of graph_type) = [0; 1; 2; 3; 4]).
  { apply variants_cases in Hv. destruct Hv as [-> | [-> | ->]]; reflexivity. }
  split; [exact Hn | split].
  - unfold nx.len. rewrite Hn. reflexivity.
  - intros v. rewrite Hn. simpl. lia.
Qed.

Lemma graph_has_five_nodes_0_to_4_witness :
  In "ring" variants /\ nx.nodes (graph_of "ring") = [0; 1; 2; 3; 4].
Proof.
  assert (Hv : In "ring" variants) by (simpl; auto).
  split; [exact Hv |].
  exact (proj1 (graph_has_five_nodes_0_to_4 "ring" Hv)).
Defined.

(** C2.  For each variant the edges of the graph are exactly the ones the
    specification lists for it, read as undirected edges: two nodes are
    adjacent exactly when the pair is listed in one of its two orientations,
    and the edge view reports each listed edge once and nothing else. *)
Theorem edges_are_exactly_the_listed_ones (graph_type : string) :
  In graph_type variants ->
  (forall u v, adjacent (graph_of graph_type) u v <->
               undirected_in u v (spec_edges graph_type)) /\
  (forall u v, undirected_in u v (nx.edges (graph_of graph_type)) <->
               undirected_in u v (spec_edges graph_type)) /\
  NoDup (nx.edges (graph_of graph_type)) /\
  length (nx.edges (graph_of graph_type)) = length (spec_edges graph_type).
Proof.
  intros Hv. apply variants_cases in Hv.
  destruct Hv as [-> | [-> | ->]].
  - split; [| split; [| split]].
    + intros u v. rewrite linear_adjacent. unfold undirected_in. simpl. split.
      * intros (Hu & Hv & Huv).
        assert (Hc : u = 0 \/ u = 1 \/ u = 2 \/ u = 3 \/ u = 4) by lia.
        destruct Hc as [-> | [-> | [-> | [-> | ->]]]];
          destruct Huv as [-> | E]; simpl; try lia; try pick_edge;
          assert (Hd : v = 0 \/ v = 1 \/ v = 2 \/ v = 3) by lia;
          destruct Hd as [-> | [-> | [-> | ->]]]; try lia; pick_edge.
      * intros [H | H]; in_cases H; inversion H; subst; lia.
    + intros u v. same_edges.
    + apply (bool_decide_unpack _). reflexivity.
    + reflexivity.
  - split; [| split; [| split]].
    + intros u v. rewrite ring_adjacent. unfold undirected_in. simpl. split.
      * intros (Hu & Hv & Huv).
        assert (Hc : u = 0 \/ u = 1 \/ u = 2 \/ u = 3 \/ u = 4) by lia.
        assert (Hd : v = 0 \/ v = 1 \/ v = 2 \/ v = 3 \/ v = 4) by lia.
        destruct Hc as [-> | [-> | [-> | [-> | ->]]]];
          destruct Hd as [-> | [-> | [-> | [-> | ->]]]]; try lia; pick_edge.
      * intros [H | H]; in_cases H; inversion H; subst; lia.
    + intros u v. same_edges.
    + apply (bool_decide_unpack _). reflexivity.
    + reflexivity.
  - split; [| split; [| split]].
    + intros u v. rewrite star_adjacent. unfold undirected_in. simpl. split.
      * intros [[-> Hv] | [-> Hu]].
        -- assert (Hd : v = 1 \/ v = 2 \/ v = 3 \/ v = 4) by lia.
           destruct Hd as [-> | [-> | [-> | ->]]]; pick_edge.
        -- assert (Hd : u = 1 \/ u = 2 \/ u = 3 \/ u = 4) by lia.
           destruct Hd as [-> | [-> | [-> | ->]]]; pick_edge.
      * intros [H | H]; in_cases H; inversion H; subst; lia.
    + intros u v. same_edges.
    + apply (bool_decide_unpack _). reflexivity.
    + reflexivity.
Qed.

Lemma edges_are_exactly_the_listed_ones_witness :
  In "ring" variants /\
  (adjacent (graph_of "ring") 0 4 <-> undirected_in 0 4 (spec_edges "ring")).
Proof.
  assert (Hv : In "ring" variants) by (simpl; auto).
  split; [exact Hv |].
  exact (proj1 (edges_are_exactly_the_listed_ones "ring" Hv) 0 4).
Defined.

(** C5.  In the star graph node 0 has degree 4 and each of the nodes 1, 2, 3
    and 4 has degree 1. *)
Theorem star_degrees :
  nx.degree (graph_of "star") 0 = 4%nat /\
  nx.degree (graph_of "star") 1 = 1%nat /\
  nx.degree (graph_of "star") 2 = 1%nat /\
  nx.degree (graph_of "star") 3 = 1%nat /\
  nx.degree (graph_of "star") 4 = 1%nat.
Proof. repeat split; reflexivity. Qed.

(** *** Connectedness *)

Lemma walk_rtc (g : nx.Graph) (p : list Z) :
  forall u, walk g u p -> rtc (adjacent g) u (walk_end u p).
Proof.
  induction p as [| v p IH]; intros u Hw; simpl.
  - apply rtc_refl.
  - destruct Hw as [Huv Hw]. eapply rtc_l; [exact Huv | apply IH, Hw].
Qed.

Lemma connected_through (g : nx.Graph) (h : Z) :
  (forall v, In v (nx.nodes g) -> rtc (adjacent g) h v /\ rtc (adjacent g) v h) ->
  connected g.
Proof.
  intros Hh u v Hu Hv.
  transitivity h; [apply (Hh u Hu) | apply (Hh v Hv)].
Qed.

Ltac along g u p := refine (walk_rtc g p u _); simpl; repeat split; reflexivity.

(** C10.  For each variant the graph is connected: any two of its nodes are
    joined by a path of edges. *)
Theorem every_topology_is_connected (graph_type : string) :
  In graph_type variants -> connected (graph_of graph_type).
Proof.
  intros Hv. apply variants_cases in Hv.
  destruct Hv as [-> | [-> | ->]]; apply (connected_through _ 0); intros v Hin.
  - in_cases Hin; subst v; split.
    + along (graph_of "linear") 0 (@nil Z).
    + along (graph_of "linear") 0 (@nil Z).
    + along (graph_of "linear") 0 [1].
    + along (graph_of "linear") 1 [0].
    + along (graph_of "linear") 0 [1; 2].
    + along (graph_of "linear") 2 [1; 0].
    + along (graph_of "linear") 0 [1; 2; 3].
    + along (graph_of "linear") 3 [2; 1; 0].
    + along (graph_of "linear") 0 [1; 2; 3; 4].
    + along (graph_of "linear") 4 [3; 2; 1; 0].
  - in_cases Hin; subst v; split.
    + along (graph_of "ring") 0 (@nil Z).
    + along (graph_of "ring") 0 (@nil Z).
    + along (graph_of "ring") 0 [1].
    + along (graph_of "ring") 1 [0].
    + along (graph_of "ring") 0 [1; 2].
    + along (graph_of "ring") 2 [1; 0].
    + along (graph_of "ring") 0 [4; 3].
    + along (graph_of "ring") 3 [4; 0].
    + along (graph_of "ring") 0 [4].
    + along (graph_of "ring") 4 [0].
  - in_cases Hin; subst v; split.
    + along (graph_of "star") 0 (@nil Z).
    + along (graph_of "star") 0 (@nil Z).
    + along (graph_of "star") 0 [1].
    + along (graph_of "star") 1 [0].
    + along (graph_of "star") 0 [2].
    + along (graph_of "star") 2 [0].
    + along (graph_of "star") 0 [3].
    + along (graph_of "star") 3 [0].
    + along (graph_of "star") 0 [4].
    + along (graph_of "star") 4 [0].
Qed.

Lemma every_topology_is_connected_witness :
  In "star" variants /\ rtc (adjacent (graph_of "star")) 3 2.
Proof.
  assert (Hv : In "star" variants) by (simpl; auto).
  split; [exact Hv |].
  apply (every_topology_is_connected "star" Hv 3 2); simpl; auto 10.
Defined.

(** *** Cycles *)

Lemma linear_walk_up (p : list Z) :
  forall v0 v1,
    walk (graph_of "linear") v0 (v1 :: p) -> NoDup (v0 :: v1 :: p) ->
    v1 = v0 + 1 ->
    walk_end v0 (v1 :: p) = v1 + Z.of_nat (length p).
Proof.
  induction p as [| v2 p IH]; intros v0 v1 Hw Hnd Hup; simpl.
  - lia.
  - destruct Hw as (H01 & H12 & Hw).
    pose proof (proj1 (linear_adjacent v1 v2) H12) as Hl.
    rewrite !NoDup_cons, !not_elem_of_cons in Hnd.
    destruct Hnd as ((_ & Hne02 & _) & Hnd1 & Hnd2).
    assert (Hup' : v2 = v1 + 1) by lia.
    specialize (IH v1 v2).
    simpl in IH. rewrite IH.
    + lia.
    + split; assumption.
    + rewrite !NoDup_cons, !not_elem_of_cons. split; [exact Hnd1 | exact Hnd2].
    + exact Hup'.
Qed.

Lemma linear_walk_down (p : list Z) :
  forall v0 v1,
    walk (graph_of "linear") v0 (v1 :: p) -> NoDup (v0 :: v1 :: p) ->
    v0 = v1 + 1 ->
    walk_end v0 (v1 :: p) = v1 - Z.of_nat (length p).
Proof.
  induction p as [| v2 p IH]; intros v0 v1 Hw Hnd Hdown; simpl.
  - lia.
  - destruct Hw as (H01 & H12 & Hw).
    pose proof (proj1 (linear_adjacent v1 v2) H12) as Hl.
    rewrite !NoDup_cons, !not_elem_of_cons in Hnd.
    destruct Hnd as ((_ & Hne02 & _) & Hnd1 & Hnd2).
    assert (Hdown' : v1 = v2 + 1) by lia.
    specialize (IH v1 v2).
    simpl in IH. rewrite IH.
    + lia.
    + split; assumption.
    + rewrite !NoDup_cons, !not_elem_of_cons. split; [exact Hnd1 | exact Hnd2].
    + exact Hdown'.
Qed.

Lemma linear_acyclic : ~ cyclic (graph_of "linear").
Proof.
  intros [c Hc]. destruct c as [| v0 [| v1 [| v2 p]]]; simpl in Hc;
    try (destruct Hc as [Hlen _]; simpl in Hlen; lia); try contradiction.
  destruct Hc as (_ & Hnd & Hw & Hclose).
  pose proof Hw as (H01 & _).
  apply linear_adjacent in H01. apply linear_adjacent in Hclose.
  destruct H01 as (_ & _ & [Hup | Hdown]).
  - pose proof (linear_walk_up (v2 :: p) v0 v1 Hw Hnd Hup) as He.
    simpl in He. simpl in Hclose. lia.
  - pose proof (linear_walk_down (v2 :: p) v0 v1 Hw Hnd Hdown) as He.
    simpl in He. simpl in Hclose. lia.
Qed.

Lemma star_acyclic : ~ cyclic (graph_of "star").
Proof.
  intros [c Hc]. destruct c as [| v0 [| v1 [| v2 p]]]; simpl in Hc;
    try (destruct Hc as [Hlen _]; simpl in Hlen; lia); try contradiction.
  destruct Hc as (_ & Hnd & (H01 & H12 & Hw) & Hclose).
  apply star_adjacent in H01. apply star_adjacent in H12.
  rewrite !NoDup_cons, !not_elem_of_cons in Hnd.
  destruct Hnd as ((Hne01 & Hne02 & _) & (Hne12 & Hnd1) & Hnd2).
  destruct p as [| v3 p].
  - simpl in Hclose. apply star_adjacent in Hclose. lia.
  - destruct Hw as (H23 & _). apply star_adjacent in H23.
    rewrite not_elem_of_cons in Hnd1. lia.
Qed.

Lemma ring_cyclic : cyclic (graph_of "ring").
Proof.
  exists [0; 1; 2; 3; 4]. simpl. split; [lia | split].
  - apply (bool_decide_unpack _). reflexivity.
  - repeat split; reflexivity.
Qed.

(** C4.  Of the three graphs only the ring contains a cycle: the ring graph
    is cyclic, the linear and the star graph are not. *)
Theorem ring_is_the_only_cyclic_topology :
  cyclic (graph_of "ring") /\
  ~ cyclic (graph_of "linear") /\
  ~ cyclic (graph_of "star") /\
  (forall graph_type, In graph_type variants ->
     (cyclic (graph_of graph_type) <-> graph_type = "ring")).
Proof.
  split; [exact ring_cyclic |].
  split; [exact linear_acyclic |].
  split; [exact star_acyclic |].
  intros graph_type Hv. apply variants_cases in Hv.
  destruct Hv as [-> | [-> | ->]]; split; intros H;
    try reflexivity; try discriminate;
    try exact ring_cyclic;
    try (exfalso; apply linear_acyclic; exact H);
    try (exfalso; apply star_acyclic; exact H).
Qed.

Lemma ring_is_the_only_cyclic_topology_witness :
  In "linear" variants /\ (cyclic (graph_of "linear") <-> "linear" = "ring").
Proof.
  assert (Hv : In "linear" variants) by (simpl; auto).
  split; [exact Hv |].
  destruct ring_is_the_only_cyclic_topology as (_ & _ & _ & H).
  exact (H "linear" Hv).
Defined.

(** ** The layouts *)

Lemma factor_pos (pts : list nx.point) : (0 < factor pts)%R.
Proof.
  unfold factor. destruct (Rlt_dec 0 (nx.abs_max (centered pts))) as [Hlt | _].
  - apply Rdiv_lt_0_compat; [lra | exact Hlt].
  - lra.
Qed.

Lemma rescale_layout_eq (pts : list nx.point) :
  nx.rescale_layout pts 1 =
  map (fun p => (((fst p - fst (nx.mean pts)) * factor pts)%R,
                 ((snd p - snd (nx.mean pts)) * factor pts)%R)) pts.
Proof.
  unfold nx.rescale_layout, factor. fold (centered pts).
  destruct (Rlt_dec 0 (nx.abs_max (centered pts))) as [Hlt | Hge].
  - unfold centered. rewrite map_map. reflexivity.
  - unfold centered. apply map_ext. intros [x y]. simpl. f_equal; lra.
Qed.

Lemma theta_angle (k : nat) :
  (INR k * (1 / INR 5) * 2 * PI = IZR (Z.of_nat k) * (2 * PI / 5))%R.
Proof.
  rewrite <- INR_IZR_INZ. replace (INR 5) with 5%R by (simpl; lra). field.
Qed.

(** The formula of the ring layout, read in exact arithmetic: node [k] at
    the angle [k * 2 pi / 5] of one circle.  It serves to name the five
    positions; what the properties below say of them does not depend on
    their values. *)
Lemma ring_layout_eq :
  exists (c : nx.point) (r : R), (0 < r)%R /\
    layout_of "ring" = Some (map (fun k =>
      (Z.of_nat k, ((fst c + r * cos (IZR (Z.of_nat k) * (2 * PI / 5)))%R,
                    (snd c + r * sin (IZR (Z.of_nat k) * (2 * PI / 5)))%R)))
      (seq 0 5)).
Proof.
  unfold layout_of, draw_topology_locals. cbn [String.eqb Ascii.eqb Bool.eqb pos].
  change (nx.add_edges_from _ nx.empty) with (graph_of "ring").
  unfold nx.circular_layout, nx.len. rewrite ring_nodes.
  cbn [length]. rewrite rescale_layout_eq.
  set (pts := map (fun t => (cos t, sin t)) (nx.theta 5)).
  assert (Hpts : pts = map (fun k => (cos (IZR (Z.of_nat k) * (2 * PI / 5)),
                                      sin (IZR (Z.of_nat k) * (2 * PI / 5))))
                           (seq 0 5)).
  { unfold pts, nx.theta. rewrite map_map. apply map_ext. intros k.
    rewrite theta_angle. reflexivity. }
  pose proof (factor_pos pts) as Hs.
  set (m := nx.mean pts) in *. set (s := factor pts) in *. clearbody m s.
  exists ((- fst m * s)%R, (- snd m * s)%R), s.
  split; [exact Hs |].
  f_equal. rewrite Hpts.
  cbn [seq map combine fst snd].
  repeat (apply f_equal2; [apply f_equal2; [reflexivity | apply f_equal2; ring] |]).
  reflexivity.
Qed.

(** X10.  The linear and the star layout are the literal coordinates of
    lines 13 and 26, and they give every node of their graph a position. *)
Theorem linear_and_star_layouts_are_the_literals :
  (layout_of "linear" =
     Some [(0, nx.xy 4 0); (1, nx.xy 3 1); (2, nx.xy 2 2); (3, nx.xy 1 1); (4, nx.xy 0 0)] /\
   forall pos, layout_of "linear" = Some pos -> covers pos (graph_of "linear")) /\
  (layout_of "star" =
     Some [(0, nx.xy 0 0); (1, nx.xy 1 1); (2, nx.xy 1 (-1)); (3, nx.xy (-1) (-1));
           (4, nx.xy (-1) 1)] /\
   forall pos, layout_of "star" = Some pos -> covers pos (graph_of "star")).
Proof.
  split.
  - split; [reflexivity |].
    intros pos Hpos. injection Hpos as <-. intros v Hv.
    rewrite linear_nodes in Hv. in_cases Hv; subst v; eexists; reflexivity.
  - split; [reflexivity |].
    intros pos Hpos. injection Hpos as <-. intros v Hv.
    rewrite star_nodes in Hv. in_cases Hv; subst v; eexists; reflexivity.
Qed.

Lemma linear_and_star_layouts_are_the_literals_witness :
  layout_of "star" =
    Some [(0, nx.xy 0 0); (1, nx.xy 1 1); (2, nx.xy 1 (-1)); (3, nx.xy (-1) (-1));
          (4, nx.xy (-1) 1)] /\
  covers [(0, nx.xy 0 0); (1, nx.xy 1 1); (2, nx.xy 1 (-1)); (3, nx.xy (-1) (-1));
          (4, nx.xy (-1) 1)]
         (graph_of "star").
Proof.
  destruct linear_and_star_layouts_are_the_literals as (_ & Heq & Hcov).
  split; [exact Heq | exact (Hcov _ Heq)].
Defined.

(** ** The script *)

Lemma bind_assoc {A B C} (m : M A) (f : A -> M B) (g : B -> M C) (w : World) :
  bind (bind m f) g w = bind m (fun a => bind (f a) g) w.
Proof. unfold bind. destruct (m w) as [[a | e] w1]; reflexivity. Qed.

Lemma bind_ext {A B} (m : M A) (f g : A -> M B) (w : World) :
  (forall a w1, f a w1 = g a w1) -> bind m f w = bind m g w.
Proof. intros H. unfold bind. destruct (m w) as [[a | e] w1]; [apply H | reflexivity]. Qed.

Lemma bind_raise {A B} (m : M A) (k : A -> M B) (w w' : World) (e : exn) :
  m w = (Raise e, w') -> bind m k w = (Raise e, w').
Proof. intros H. unfold bind. rewrite H. reflexivity. Qed.

Lemma bind_ok {A B} (m : M A) (k : A -> M B) (w w' : World) (a : A) :
  m w = (Ok a, w') -> bind m k w = k a w'.
Proof. intros H. unfold bind. rewrite H. reflexivity. Qed.

(** The script is its three paragraphs in sequence. *)
Lemma main_blocks (fault : call -> World -> option exn) (w : World) :
  main fault w =
  (render_and_save fault "linear" "Linear Topology" "linear_topology.png";;
   render_and_save fault "ring" "Ring Topology" "ring_topology.png";;
   render_and_save fault "star" "Star Topology" "star_topology.png") w.
Proof.
  unfold main, render_and_save.
  rewrite bind_assoc. apply bind_ext. intros [fig1 ax1] w1.
  rewrite bind_assoc. apply bind_ext. intros [] w2.
  rewrite bind_assoc. apply bind_ext. intros [] w3.
  apply bind_ext. intros [] w4.
  rewrite bind_assoc. apply bind_ext. intros [fig2 ax2] w5.
  rewrite bind_assoc. apply bind_ext. intros [] w6.
  rewrite bind_assoc. apply bind_ext. intros [] w7.
  apply bind_ext. intros [] w8.
  reflexivity.
Qed.

Section script_facts.

Variable fault : call -> World -> option exn.

(** *** Runs that return normally do not depend on the environment *)

Lemma succeeds_as_refl {A} (m : M A) : succeeds_as m m.
Proof. intros w a w' H. exact H. Qed.

Lemma succeeds_as_bind {A B} (m m0 : M A) (k k0 : A -> M B) :
  succeeds_as m m0 -> (forall a, succeeds_as (k a) (k0 a)) ->
  succeeds_as (bind m k) (bind m0 k0).
Proof.
  intros Hm Hk w b w' H. unfold bind in *.
  destruct (m w) as [[a | e] w1] eqn:E; [| discriminate].
  rewrite (Hm _ _ _ E). apply Hk. exact H.
Qed.

Lemma succeeds_as_enter (c : call) : succeeds_as (enter fault c) (enter no_fault c).
Proof.
  intros w a w' H. unfold enter, no_fault in *.
  destruct (fault c w); [discriminate | exact H].
Qed.

Ltac same_run :=
  repeat first
    [ apply succeeds_as_enter
    | apply succeeds_as_bind; [| intros ?]
    | apply succeeds_as_refl ].

Lemma succeeds_as_draw_topology (graph_type title : string) (ax : nat) :
  succeeds_as (draw_topology fault graph_type title ax)
              (draw_topology no_fault graph_type title ax).
Proof.
  unfold draw_topology.
  apply succeeds_as_bind; [apply succeeds_as_refl | intros _].
  destruct (pos (draw_topology_locals graph_type)) as [ps |];
    [| apply succeeds_as_refl].
  unfold nx_draw_networkx_nodes, nx_draw_networkx_edges, nx_draw_networkx_labels,
    ax_set_title, ax_axis_off.
  same_run.
Qed.

Lemma succeeds_as_render_and_save (graph_type title fname : string) :
  succeeds_as (render_and_save fault graph_type title fname)
              (render_and_save no_fault graph_type title fname).
Proof.
  unfold render_and_save.
  apply succeeds_as_bind.
  { unfold plt_subplots. same_run. }
  intros [fig ax].
  apply succeeds_as_bind; [apply succeeds_as_draw_topology | intros _].
  unfold fig_savefig, print. same_run.
Qed.

Lemma succeeds_as_main : succeeds_as (main fault) (main no_fault).
Proof.
  intros w a w' H. rewrite main_blocks in H. rewrite main_blocks.
  revert w a w' H.
  apply succeeds_as_bind; [apply succeeds_as_render_and_save | intros _].
  apply succeeds_as_bind; [apply succeeds_as_render_and_save | intros _].
  apply succeeds_as_render_and_save.
Qed.

End script_facts.

(** *** The run in which nothing fails *)

Lemma ring_layout_points :
  exists a b c d e : nx.point,
    nx.circular_layout (graph_of "ring") = [(0, a); (1, b); (2, c); (3, d); (4, e)].
Proof.
  destruct ring_layout_eq as (c & r & _ & H).
  unfold layout_of, draw_topology_locals in H.
  cbn [String.eqb Ascii.eqb Bool.eqb pos] in H.
  change (nx.add_edges_from _ nx.empty) with (graph_of "ring") in H.
  injection H as ->. cbn [seq map Z.of_nat Pos.of_succ_nat Pos.succ].
  do 5 eexists. reflexivity.
Qed.

(** What the three files hold does not depend on the files that were
    there before. *)
Lemma main_no_fault :
  exists img1 img2 img3 : plt.Image, forall fs, exists w,
    main no_fault (initial_world fs) = (Ok tt, w) /\
    files w = <["star_topology.png" := img3]>
                (<["ring_topology.png" := img2]>
                   (<["linear_topology.png" := img1]> fs)) /\
    stdout w = ["Saved linear_topology.png"; "Saved ring_topology.png";
                "Saved star_topology.png"] /\
    saved_names (trace w) =
      ["linear_topology.png"; "ring_topology.png"; "star_topology.png"].
Proof.
  destruct ring_layout_points as (a & b & c & d & e & Hring).
  do 3 eexists. intros fs. eexists.
  split.
  - unfold main, draw_topology.
    change (draw_topology_locals "ring") with
      {| G := graph_of "ring"; pos := Some (nx.circular_layout (graph_of "ring")) |}.
    rewrite Hring. cbv -[insert IZR]. reflexivity.
  - cbn [files stdout trace]. split; [reflexivity | split; reflexivity].
Qed.

Lemma successful_run (fault : call -> World -> option exn) :
  exists img1 img2 img3 : plt.Image, forall fs w,
    main fault (initial_world fs) = (Ok tt, w) ->
    files w = <["star_topology.png" := img3]>
                (<["ring_topology.png" := img2]>
                   (<["linear_topology.png" := img1]> fs)) /\
    stdout w = ["Saved linear_topology.png"; "Saved ring_topology.png";
                "Saved star_topology.png"] /\
    saved_names (trace w) =
      ["linear_topology.png"; "ring_topology.png"; "star_topology.png"].
Proof.
  destruct main_no_fault as (img1 & img2 & img3 & H0).
  exists img1, img2, img3. intros fs w Hrun.
  apply succeeds_as_main in Hrun.
  destruct (H0 fs) as (w0 & Hrun0 & Hfiles & Hout & Hsaved).
  rewrite Hrun0 in Hrun. injection Hrun as <-.
  split; [exact Hfiles | split; [exact Hout | exact Hsaved]].
Qed.

Lemma no_fault_run_succeeds (fs : gmap string plt.Image) :
  main no_fault (initial_world fs) = (Ok tt, snd (main no_fault (initial_world fs))).
Proof.
  destruct main_no_fault as (img1 & img2 & img3 & H0).
  destruct (H0 fs) as (w0 & Hrun0 & _). rewrite Hrun0. reflexivity.
Qed.

(** C7.  A run that completes writes exactly three files, named
    [linear_topology.png], [ring_topology.png] and [star_topology.png], in
    that order and over whatever the directory held, and prints exactly the
    three lines [Saved linear_topology.png], [Saved ring_topology.png],
    [Saved star_topology.png] in that order; and when no library call
    fails the run does complete. *)
Theorem complete_run_writes_three_files_and_prints_three_lines
    (fault : call -> World -> option exn) (fs : gmap string plt.Image) (w : World) :
  main fault (initial_world fs) = (Ok tt, w) ->
  saved_names (trace w) =
    ["linear_topology.png"; "ring_topology.png"; "star_topology.png"] /\
  (exists img1 img2 img3,
     files w = <["star_topology.png" := img3]>
                 (<["ring_topology.png" := img2]>
                    (<["linear_topology.png" := img1]> fs))) /\
  stdout w = ["Saved linear_topology.png"; "Saved ring_topology.png";
              "Saved star_topology.png"] /\
  fst (main no_fault (initial_world fs)) = Ok tt.
Proof.
  intros Hrun.
  destruct (successful_run fault) as (img1 & img2 & img3 & H).
  destruct (H fs w Hrun) as (Hfiles & Hout & Hsaved).
  split; [exact Hsaved |].
  split; [exists img1, img2, img3; exact Hfiles |].
  split; [exact Hout |].
  rewrite no_fault_run_succeeds. reflexivity.
Qed.

Lemma complete_run_writes_three_files_and_prints_three_lines_witness :
  main no_fault (initial_world ∅) = (Ok tt, snd (main no_fault (initial_world ∅))) /\
  stdout (snd (main no_fault (initial_world ∅))) =
    ["Saved linear_topology.png"; "Saved ring_topology.png"; "Saved star_topology.png"].
Proof.
  split; [apply no_fault_run_succeeds |].
  apply (complete_run_writes_three_files_and_prints_three_lines no_fault ∅).
  apply no_fault_run_succeeds.
Defined.

(** C9.  The script reads nothing: the contents of the three files and the
    printed lines are the same for every run that completes, whatever the
    directory held before and whatever the environment; a second run over
    the files the first one left completes when nothing fails, and leaves
    the same files and prints the same lines. *)
Theorem runs_are_deterministic_and_idempotent :
  exists img1 img2 img3 : plt.Image,
    forall (fault : call -> World -> option exn) (fs : gmap string plt.Image) (w1 : World),
      main fault (initial_world fs) = (Ok tt, w1) ->
      (files w1 !! "linear_topology.png" = Some img1 /\
       files w1 !! "ring_topology.png" = Some img2 /\
       files w1 !! "star_topology.png" = Some img3 /\
       stdout w1 = ["Saved linear_topology.png"; "Saved ring_topology.png";
                    "Saved star_topology.png"]) /\
      fst (main no_fault (initial_world (files w1))) = Ok tt /\
      forall (fault' : call -> World -> option exn) (w2 : World),
        main fault' (initial_world (files w1)) = (Ok tt, w2) ->
        files w2 = files w1 /\ stdout w2 = stdout w1.
Proof.
  destruct main_no_fault as (img1 & img2 & img3 & H0).
  exists img1, img2, img3. intros fault fs w1 Hrun1.
  assert (Hany : forall fault fs w,
             main fault (initial_world fs) = (Ok tt, w) ->
             files w = <["star_topology.png" := img3]>
                         (<["ring_topology.png" := img2]>
                            (<["linear_topology.png" := img1]> fs)) /\
             stdout w = ["Saved linear_topology.png"; "Saved ring_topology.png";
                         "Saved star_topology.png"]).
  { intros fault0 fs0 w Hrun. apply succeeds_as_main in Hrun.
    destruct (H0 fs0) as (w0 & Hrun0 & Hfiles & Hout & _).
    rewrite Hrun0 in Hrun. injection Hrun as <-. split; assumption. }
  destruct (Hany _ _ _ Hrun1) as (Hf1 & Ho1).
  split; [| split].
  - rewrite Hf1, Ho1. repeat split; by simplify_map_eq.
  - rewrite no_fault_run_succeeds. reflexivity.
  - intros fault' w2 Hrun2.
    destruct (Hany _ _ _ Hrun2) as (Hf2 & Ho2).
    split; [| congruence].
    rewrite Hf2, Hf1. apply map_eq. intros k.
    destruct (decide (k = "star_topology.png")) as [-> | Hk3];
      [by simplify_map_eq |].
    destruct (decide (k = "ring_topology.png")) as [-> | Hk2];
      [by simplify_map_eq |].
    destruct (decide (k = "linear_topology.png")) as [-> | Hk1];
      by simplify_map_eq.
Qed.

Lemma runs_are_deterministic_and_idempotent_witness :
  main no_fault (initial_world ∅) = (Ok tt, snd (main no_fault (initial_world ∅))) /\
  files (snd (main no_fault (initial_world (files (snd (main no_fault (initial_world ∅)))))))
  = files (snd (main no_fault (initial_world ∅))).
Proof.
  split; [apply no_fault_run_succeeds |].
  destruct runs_are_deterministic_and_idempotent as (img1 & img2 & img3 & H).
  destruct (H no_fault ∅ _ (no_fault_run_succeeds ∅)) as (_ & _ & Hsecond).
  exact (proj1 (Hsecond no_fault _ (no_fault_run_succeeds _))).
Defined.

(** *** Failures *)

Section failures.

Variable fault : call -> World -> option exn.
Variable I : World -> Prop.

Lemma preserves_bind {A B} (m : M A) (k : A -> M B) :
  preserves I m -> (forall a, preserves I (k a)) -> preserves I (bind m k).
Proof.
  intros Hm Hk w Hw. unfold bind.
  specialize (Hm w Hw). destruct (m w) as [[a | e] w1]; simpl in *.
  - apply Hk. exact Hm.
  - exact Hm.
Qed.

Lemma quiet_bind {A B} (m : M A) (k : A -> M B) :
  quiet m -> (forall a, quiet (k a)) -> quiet (bind m k).
Proof.
  intros Hm Hk w. unfold bind.
  specialize (Hm w). destruct (m w) as [[a | e] w1]; simpl in *.
  - destruct (Hk a w1) as (H1 & H2 & H3). destruct Hm as (H4 & H5 & H6).
    repeat split; congruence.
  - exact Hm.
Qed.

Lemma quiet_ret {A} (a : A) : quiet (ret a).
Proof. intros w. repeat split. Qed.

Lemma quiet_raise {A} (e : exn) : quiet (@raise A e).
Proof. intros w. repeat split. Qed.

Lemma quiet_lift {A} (r : result A) : quiet (lift r).
Proof. intros w. repeat split. Qed.

Lemma quiet_update_ax (ax : nat) (f : plt.Axes -> plt.Axes) : quiet (update_ax ax f).
Proof. intros w. repeat split. Qed.

Lemma quiet_for_each {A} (l : list A) (body : A -> M unit) :
  (forall x, quiet (body x)) -> quiet (for_each l body).
Proof.
  intros Hb. induction l as [| x l IH]; simpl.
  - apply quiet_ret.
  - apply quiet_bind; [apply Hb | intros _; exact IH].
Qed.

End failures.

Section star_invariant.

Variable fault : call -> World -> option exn.
Variable fs : gmap string plt.Image.

Lemma star_untouched_initial : star_untouched fs (initial_world fs).
Proof. unfold star_untouched. simpl. auto. Qed.

Lemma preserves_quiet {A} (m : M A) : quiet m -> preserves (star_untouched fs) m.
Proof.
  intros Hq w (H1 & H2 & H3). destruct (Hq w) as (Hf & Ho & Ht).
  unfold star_untouched. rewrite Hf, Ho, Ht. auto.
Qed.

Lemma preserves_enter (c : call) :
  star_event (Call c) = false -> preserves (star_untouched fs) (enter fault c).
Proof.
  intros Hc w (H1 & H2 & H3). unfold enter, star_untouched.
  destruct (fault c w); cbn [snd files stdout trace];
    (split; [exact H1 | split; [exact H2 |]];
     rewrite forallb_app, H3; cbn [forallb andb]; rewrite Hc; reflexivity).
Qed.

Lemma preserves_draw_topology (graph_type title : string) (ax : nat) :
  String.eqb graph_type "star" = false ->
  preserves (star_untouched fs) (draw_topology fault graph_type title ax).
Proof.
  intros Hgt. unfold draw_topology. apply preserves_bind.
  { intros w (H1 & H2 & H3). unfold log, star_untouched.
    cbn [snd files stdout trace].
    split; [exact H1 | split; [exact H2 |]].
    rewrite forallb_app, H3. cbn [forallb andb star_event].
    rewrite Hgt. reflexivity. }
  intros _. destruct (pos (draw_topology_locals graph_type)) as [ps |];
    [| apply preserves_quiet, quiet_raise].
  set (g := G (draw_topology_locals graph_type)).
  apply preserves_bind.
  { unfold nx_draw_networkx_nodes.
    apply preserves_bind; [apply preserves_enter; reflexivity | intros _].
    apply preserves_quiet. destruct (nx.nodes g); [apply quiet_ret |].
    destruct (list_comp _ _) as [xy | []];
      first [apply quiet_update_ax | apply quiet_raise]. }
  intros _. apply preserves_bind.
  { unfold nx_draw_networkx_edges.
    apply preserves_bind; [apply preserves_enter; reflexivity | intros _].
    apply preserves_quiet. destruct (nx.edges g); [apply quiet_ret |].
    apply quiet_bind; [apply quiet_lift | intros ?; apply quiet_update_ax]. }
  intros _. apply preserves_bind.
  { unfold nx_draw_networkx_labels.
    apply preserves_bind; [apply preserves_enter; reflexivity | intros _].
    apply preserves_quiet, quiet_for_each. intros n.
    apply quiet_bind; [apply quiet_lift | intros ?; apply quiet_update_ax]. }
  intros _. apply preserves_bind.
  { unfold ax_set_title.
    apply preserves_bind; [apply preserves_enter; reflexivity | intros _].
    apply preserves_quiet, quiet_update_ax. }
  intros _. unfold ax_axis_off.
  apply preserves_bind; [apply preserves_enter; reflexivity | intros _].
  apply preserves_quiet, quiet_update_ax.
Qed.

Lemma preserves_render_and_save (graph_type title fname : string) :
  String.eqb graph_type "star" = false ->
  String.eqb fname "star_topology.png" = false ->
  String.eqb ("Saved " +:+ fname) "Saved star_topology.png" = false ->
  preserves (star_untouched fs) (render_and_save fault graph_type title fname).
Proof.
  intros Hgt Hfname Hline. unfold render_and_save.
  apply preserves_bind.
  { unfold plt_subplots.
    apply preserves_bind; [apply preserves_enter; reflexivity | intros _].
    apply preserves_quiet.
    apply quiet_bind; [intros w; repeat split | intros w0].
    apply quiet_bind; [intros w; repeat split | intros _; apply quiet_ret]. }
  intros [fig ax]. apply preserves_bind; [apply preserves_draw_topology, Hgt | intros _].
  apply preserves_bind.
  { unfold fig_savefig. apply preserves_bind; [apply preserves_enter, Hfname | intros _].
    intros w (H1 & H2 & H3). unfold star_untouched.
    cbn [snd files stdout trace].
    split; [| split; assumption].
    rewrite lookup_insert_ne; [exact H1 |].
    intros ->. rewrite String.eqb_refl in Hfname. discriminate. }
  intros _. unfold print.
  apply preserves_bind; [apply preserves_enter, Hline | intros _].
  intros w (H1 & H2 & H3). unfold star_untouched.
  cbn [snd files stdout trace].
  split; [exact H1 | split; [| exact H3]].
  rewrite in_app_iff. intros [Hin | [Heq | []]]; [exact (H2 Hin) |].
  rewrite Heq, String.eqb_refl in Hline. discriminate.
Qed.

End star_invariant.

Lemma render_and_save_raises (fault : call -> World -> option exn)
    (graph_type title fname : string) (w w1 w' : World)
    (fig : plt.Figure) (ax : nat) (e : exn) :
  plt_subplots fault (5, 5) w = (Ok (fig, ax), w1) ->
  draw_topology fault graph_type title ax w1 = (Raise e, w') \/
  (exists w2, draw_topology fault graph_type title ax w1 = (Ok tt, w2) /\
              fig_savefig fault fig fname w2 = (Raise e, w')) ->
  render_and_save fault graph_type title fname w = (Raise e, w').
Proof.
  intros Hsub Hfail. unfold render_and_save.
  rewrite (bind_ok _ _ _ _ _ Hsub).
  destruct Hfail as [Hdraw | (w2 & Hdraw & Hsave)].
  - apply bind_raise. exact Hdraw.
  - rewrite (bind_ok _ _ _ _ _ Hdraw). apply bind_raise. exact Hsave.
Qed.

(** C8.  Nothing is caught.  A failure of a render or of a file write makes
    its paragraph of the script fail; the failure of a paragraph is the
    failure of the run, which stops in the world of the failure.  When the
    ring paragraph fails after the linear one went through, the star render
    has not been entered, its file has not been written and its line has
    not been printed. *)
Theorem no_failure_is_caught
    (fault : call -> World -> option exn) (fs : gmap string plt.Image) :
  let linear := render_and_save fault "linear" "Linear Topology" "linear_topology.png" in
  let ring := render_and_save fault "ring" "Ring Topology" "ring_topology.png" in
  let star := render_and_save fault "star" "Star Topology" "star_topology.png" in
  (forall graph_type title fname w fig ax w1 e w',
     plt_subplots fault (5, 5) w = (Ok (fig, ax), w1) ->
     draw_topology fault graph_type title ax w1 = (Raise e, w') \/
     (exists w2, draw_topology fault graph_type title ax w1 = (Ok tt, w2) /\
                 fig_savefig fault fig fname w2 = (Raise e, w')) ->
     render_and_save fault graph_type title fname w = (Raise e, w')) /\
  (forall e w,
     linear (initial_world fs) = (Raise e, w) ->
     main fault (initial_world fs) = (Raise e, w)) /\
  (forall w1 e w,
     linear (initial_world fs) = (Ok tt, w1) ->
     ring w1 = (Raise e, w) ->
     main fault (initial_world fs) = (Raise e, w) /\ star_untouched fs w) /\
  (forall w1 w2 e w,
     linear (initial_world fs) = (Ok tt, w1) ->
     ring w1 = (Ok tt, w2) ->
     star w2 = (Raise e, w) ->
     main fault (initial_world fs) = (Raise e, w)).
Proof.
  intros linear ring star.
  split; [| split; [| split]].
  - intros graph_type title fname w fig ax w1 e w' Hsub Hfail.
    exact (render_and_save_raises fault graph_type title fname w w1 w' fig ax e Hsub Hfail).
  - intros e w H1. rewrite main_blocks. apply bind_raise. exact H1.
  - intros w1 e w H1 H2. split.
    + rewrite main_blocks. fold linear ring star.
      rewrite (bind_ok _ _ _ _ _ H1). apply bind_raise. exact H2.
    + assert (Hw1 : star_untouched fs w1).
      { pose proof (preserves_render_and_save fault fs
                      "linear" "Linear Topology" "linear_topology.png"
                      eq_refl eq_refl eq_refl (initial_world fs)
                      (star_untouched_initial fs)) as Hp.
        fold linear in Hp. rewrite H1 in Hp. exact Hp. }
      pose proof (preserves_render_and_save fault fs
                    "ring" "Ring Topology" "ring_topology.png"
                    eq_refl eq_refl eq_refl w1 Hw1) as Hp.
      fold ring in Hp. rewrite H2 in Hp. exact Hp.
  - intros w1 w2 e w H1 H2 H3. rewrite main_blocks. fold linear ring star.
    rewrite (bind_ok _ _ _ _ _ H1), (bind_ok _ _ _ _ _ H2). exact H3.
Qed.

Lemma no_failure_is_caught_witness :
  let w0 := initial_world ∅ in
  let w1 := snd (render_and_save ring_write_fails
                   "linear" "Linear Topology" "linear_topology.png" w0) in
  let w2 := snd (render_and_save ring_write_fails
                   "ring" "Ring Topology" "ring_topology.png" w1) in
  render_and_save ring_write_fails "linear" "Linear Topology" "linear_topology.png" w0
    = (Ok tt, w1) /\
  render_and_save ring_write_fails "ring" "Ring Topology" "ring_topology.png" w1
    = (Raise (LibraryError "OSError"), w2) /\
  main ring_write_fails w0 = (Raise (LibraryError "OSError"), w2) /\
  star_untouched ∅ w2.
Proof.
  intros w0 w1 w2.
  assert (H1 : render_and_save ring_write_fails
                 "linear" "Linear Topology" "linear_topology.png" w0 = (Ok tt, w1)).
  { subst w1 w0. cbv -[insert IZR]. reflexivity. }
  assert (H2 : render_and_save ring_write_fails
                 "ring" "Ring Topology" "ring_topology.png" w1
               = (Raise (LibraryError "OSError"), w2)).
  { destruct ring_layout_points as (a & b & c & d & e & Hring).
    subst w2. unfold render_and_save, draw_topology.
    change (draw_topology_locals "ring") with
      {| G := graph_of "ring"; pos := Some (nx.circular_layout (graph_of "ring")) |}.
    rewrite Hring. subst w1 w0. cbv -[insert IZR]. reflexivity. }
  split; [exact H1 | split; [exact H2 |]].
  exact (proj1 (proj2 (proj2 (no_failure_is_caught ring_write_fails ∅)))
           w1 (LibraryError "OSError") w2 H1 H2).
Defined.

(** *** Values of [graph_type] that the conditional does not recognise *)

Lemma not_a_variant (graph_type : string) :
  ~ In graph_type variants ->
  String.eqb graph_type "linear" = false /\
  String.eqb graph_type "ring" = false /\
  String.eqb graph_type "star" = false.
Proof.
  unfold variants. simpl. intros Hn.
  repeat split; apply String.eqb_neq; intros ->; apply Hn; auto.
Qed.

(** C1, as the code has it.  For every value of [graph_type] other than
    "linear", "ring" and "star", [draw_topology] builds the empty graph,
    leaves [pos] unbound and fails when it first reads [pos]: it raises
    [UnboundLocalError], before any drawing call is made, with the axes, the
    files and the console as they were.  It does not produce a layout or a
    drawing. *)
Theorem unknown_variant_raises_unbound_local
    (fault : call -> World -> option exn) (graph_type title : string)
    (ax : nat) (w : World) :
  ~ In graph_type variants ->
  draw_topology fault graph_type title ax w =
    (Raise (UnboundLocalError "pos"),
     {| heap := heap w; files := files w; stdout := stdout w;
        trace := trace w ++ [Enter_draw_topology graph_type title] |}) /\
  exn_class (UnboundLocalError "pos") = "UnboundLocalError" /\
  graph_of graph_type = nx.empty /\
  layout_of graph_type = None.
Proof.
  intros Hn. destruct (not_a_variant graph_type Hn) as (H1 & H2 & H3).
  assert (Hl : draw_topology_locals graph_type = {| G := nx.empty; pos := None |}).
  { unfold draw_topology_locals. rewrite H1, H2, H3. reflexivity. }
  unfold draw_topology, graph_of, layout_of. rewrite Hl.
  repeat split.
Qed.

Lemma unknown_variant_raises_unbound_local_witness :
  ~ In "mesh" variants /\
  fst (draw_topology no_fault "mesh" "Mesh Topology" 0 (initial_world ∅)) =
    Raise (UnboundLocalError "pos").
Proof.
  assert (Hn : ~ In "mesh" variants).
  { unfold variants. simpl. intros [H | [H | [H | []]]]; discriminate. }
  split; [exact Hn |].
  rewrite (proj1 (unknown_variant_raises_unbound_local
                    no_fault "mesh" "Mesh Topology" 0 (initial_world ∅) Hn)).
  reflexivity.
Defined.

(** C1, as stated, fails: the failure for an unrecognised variant is not an
    [InvalidVariant] error. *)
Lemma unknown_variant_is_not_InvalidVariant :
  ~ In "mesh" variants /\
  exists e w',
    draw_topology no_fault "mesh" "Mesh Topology" 0 (initial_world ∅) = (Raise e, w') /\
    exn_class e <> "InvalidVariant".
Proof.
  split.
  - unfold variants. simpl. intros [H | [H | [H | []]]]; discriminate.
  - eexists _, _. split; [reflexivity |]. simpl. discriminate.
Qed.

(** * Further properties of the code *)

(** ** What [draw_topology] does to the world *)

Section ax_local_facts.

Variable fault : call -> World -> option exn.
Variable ax : nat.

Lemma ax_local_bind {A B} (m : M A) (k : A -> M B) :
  ax_local ax m -> (forall a, ax_local ax (k a)) -> ax_local ax (bind m k).
Proof.
  intros Hm Hk w. unfold bind. specialize (Hm w).
  destruct (m w) as [[a | e] w1]; cbn [snd] in *; [| exact Hm].
  destruct Hm as (Hf & Ho & Hl & Hh).
  destruct (Hk a w1) as (Hf' & Ho' & Hl' & Hh').
  split; [congruence | split; [congruence | split; [congruence |]]].
  intros i Hi. rewrite (Hh' i Hi). apply Hh, Hi.
Qed.

Lemma ax_local_enter (c : call) : ax_local ax (enter fault c).
Proof.
  intros w. unfold enter. destruct (fault c w); cbn [snd heap files stdout]; auto.
Qed.

Lemma ax_local_log (ev : event) : ax_local ax (log ev).
Proof. intros w. unfold log. cbn [snd heap files stdout]. auto. Qed.

Lemma ax_local_ret {A} (a : A) : ax_local ax (ret a).
Proof. intros w. unfold ret. cbn [snd]. auto. Qed.

Lemma ax_local_raise {A} (e : exn) : ax_local ax (@raise A e).
Proof. intros w. unfold raise. cbn [snd]. auto. Qed.

Lemma ax_local_lift {A} (r : result A) : ax_local ax (lift r).
Proof. intros w. unfold lift. cbn [snd]. auto. Qed.

Lemma ax_local_update_ax (f : plt.Axes -> plt.Axes) : ax_local ax (update_ax ax f).
Proof.
  intros w. unfold update_ax. cbn [snd heap files stdout].
  split; [reflexivity | split; [reflexivity | split]].
  - apply length_alter.
  - intros i Hi. apply list_lookup_alter_ne. congruence.
Qed.

Lemma ax_local_for_each {A} (l : list A) (body : A -> M unit) :
  (forall x, ax_local ax (body x)) -> ax_local ax (for_each l body).
Proof.
  intros Hb. induction l as [| x l IH]; cbn [for_each].
  - apply ax_local_ret.
  - apply ax_local_bind; [apply Hb | intros _; exact IH].
Qed.

Lemma ax_local_draw_topology (graph_type title : string) :
  ax_local ax (draw_topology fault graph_type title ax).
Proof.
  unfold draw_topology.
  apply ax_local_bind; [apply ax_local_log | intros _].
  destruct (pos (draw_topology_locals graph_type)) as [ps |];
    [| apply ax_local_raise].
  set (g := G (draw_topology_locals graph_type)).
  apply ax_local_bind.
  { unfold nx_draw_networkx_nodes.
    apply ax_local_bind; [apply ax_local_enter | intros _].
    destruct (nx.nodes g); [apply ax_local_ret |].
    destruct (list_comp _ _) as [xy | []];
      first [apply ax_local_update_ax | apply ax_local_raise]. }
  intros _. apply ax_local_bind.
  { unfold nx_draw_networkx_edges.
    apply ax_local_bind; [apply ax_local_enter | intros _].
    destruct (nx.edges g); [apply ax_local_ret |].
    apply ax_local_bind; [apply ax_local_lift | intros ?; apply ax_local_update_ax]. }
  intros _. apply ax_local_bind.
  { unfold nx_draw_networkx_labels.
    apply ax_local_bind; [apply ax_local_enter | intros _].
    apply ax_local_for_each. intros n.
    apply ax_local_bind; [apply ax_local_lift | intros ?; apply ax_local_update_ax]. }
  intros _. apply ax_local_bind.
  { unfold ax_set_title.
    apply ax_local_bind; [apply ax_local_enter | intros _].
    apply ax_local_update_ax. }
  intros _. unfold ax_axis_off.
  apply ax_local_bind; [apply ax_local_enter | intros _].
  apply ax_local_update_ax.
Qed.

End ax_local_facts.

(** X1.  Whatever [graph_type] is, whatever the environment does and
    whether the call returns or raises, [draw_topology] writes no file,
    prints nothing, creates no axes and changes no axes but the one it was
    given. *)
Theorem draw_topology_touches_only_its_axes
    (fault : call -> World -> option exn) (graph_type title : string)
    (ax : nat) (w : World) :
  let w' := snd (draw_topology fault graph_type title ax w) in
  files w' = files w /\ stdout w' = stdout w /\
  length (heap w') = length (heap w) /\
  forall i, i <> ax -> heap w' !! i = heap w !! i.
Proof. exact (ax_local_draw_topology fault ax graph_type title w). Qed.

Section ax_effect_facts.

Variable fault : call -> World -> option exn.
Variable ax : nat.
















End ax_effect_facts.



(** ** The files of a run *)

Section writes_only_facts.

Variable fault : call -> World -> option exn.
Variable names : list string.

Lemma writes_only_bind {A B} (m : M A) (k : A -> M B) :
  writes_only names m -> (forall a, writes_only names (k a)) ->
  writes_only names (bind m k).
Proof.
  intros Hm Hk w f Hf. unfold bind. specialize (Hm w f Hf).
  destruct (m w) as [[a | e] w1]; cbn [snd] in *; [| exact Hm].
  rewrite (Hk a w1 f Hf). exact Hm.
Qed.

Lemma writes_only_enter (c : call) : writes_only names (enter fault c).
Proof.
  intros w f Hf. unfold enter. destruct (fault c w); reflexivity.
Qed.

Lemma writes_only_ax_local {A} (ax : nat) (m : M A) :
  ax_local ax m -> writes_only names m.
Proof. intros Hm w f Hf. destruct (Hm w) as (H & _). rewrite H. reflexivity. Qed.

Lemma writes_only_plt_subplots (figsize : Z * Z) :
  writes_only names (plt_subplots fault figsize).
Proof.
  unfold plt_subplots.
  apply writes_only_bind; [apply writes_only_enter | intros _].
  intros w f Hf. reflexivity.
Qed.

Lemma writes_only_fig_savefig (fig : plt.Figure) (fname : string) :
  In fname names -> writes_only names (fig_savefig fault fig fname).
Proof.
  intros Hin. unfold fig_savefig.
  apply writes_only_bind; [apply writes_only_enter | intros _].
  intros w f Hf. cbn [snd files].
  apply lookup_insert_ne. intros ->. exact (Hf Hin).
Qed.

Lemma writes_only_print (line : string) : writes_only names (print fault line).
Proof.
  unfold print.
  apply writes_only_bind; [apply writes_only_enter | intros _].
  intros w f Hf. reflexivity.
Qed.

Lemma writes_only_render_and_save (graph_type title fname : string) :
  In fname names ->
  writes_only names (render_and_save fault graph_type title fname).
Proof.
  intros Hin. unfold render_and_save.
  apply writes_only_bind; [apply writes_only_plt_subplots | intros [fig ax]].
  apply writes_only_bind;
    [apply (writes_only_ax_local ax), ax_local_draw_topology | intros _].
  apply writes_only_bind; [apply writes_only_fig_savefig, Hin | intros _].
  apply writes_only_print.
Qed.

End writes_only_facts.

(** X3.  A run writes to three names only: whatever the environment does
    and however the run ends, every other file of the directory is, at the
    end, exactly what it was at the start (present with the same content,
    or absent). *)
Theorem run_leaves_other_files_alone
    (fault : call -> World -> option exn) (fs : gmap string plt.Image)
    (name : string) :
  ~ In name output_names ->
  files (snd (main fault (initial_world fs))) !! name = fs !! name.
Proof.
  intros Hn. rewrite main_blocks.
  assert (H : writes_only output_names
                (render_and_save fault "linear" "Linear Topology" "linear_topology.png";;
                 render_and_save fault "ring" "Ring Topology" "ring_topology.png";;
                 render_and_save fault "star" "Star Topology" "star_topology.png")%py).
  { apply writes_only_bind;
      [apply writes_only_render_and_save; simpl; auto | intros _].
    apply writes_only_bind;
      [apply writes_only_render_and_save; simpl; auto | intros _].
    apply writes_only_render_and_save; simpl; auto. }
  exact (H (initial_world fs) name Hn).
Qed.

Lemma run_leaves_other_files_alone_witness :
  ~ In "notes.png" output_names /\
  files (snd (main ring_write_fails
                (initial_world {["notes.png" := plt.mkImage (1, 1) plt.new_axes]})))
    !! "notes.png" = Some (plt.mkImage (1, 1) plt.new_axes).
Proof.
  assert (Hn : ~ In "notes.png" output_names).
  { unfold output_names. simpl. intros [H | [H | [H | []]]]; discriminate. }
  split; [exact Hn |].
  rewrite (run_leaves_other_files_alone ring_write_fails _ "notes.png" Hn).
  apply lookup_singleton_eq.
Defined.

(** ** Where failures come from *)

Section fails_only_by_fault_facts.

Variable fault : call -> World -> option exn.

Lemma fof_bind {A B} (m : M A) (k : A -> M B) :
  fails_only_by_fault fault m -> (forall a, fails_only_by_fault fault (k a)) ->
  fails_only_by_fault fault (bind m k).
Proof.
  intros Hm Hk w e w' Hrun. unfold bind in Hrun.
  destruct (m w) as [[a | e1] w1] eqn:E.
  - exact (Hk a w1 e w' Hrun).
  - injection Hrun as <- <-. exact (Hm w e1 w1 E).
Qed.

Lemma fof_enter (c : call) : fails_only_by_fault fault (enter fault c).
Proof.
  intros w e w' Hrun. unfold enter in Hrun.
  destruct (fault c w) as [e1 |] eqn:E; [| discriminate].
  injection Hrun as <- <-. exists c, w. split; [exact E | reflexivity].
Qed.

Lemma fof_total {A} (m : M A) :
  (forall w, exists a w', m w = (Ok a, w')) -> fails_only_by_fault fault m.
Proof.
  intros Hm w e w' Hrun. destruct (Hm w) as (a & w1 & H). congruence.
Qed.

Ltac only_faults :=
  repeat first
    [ apply fof_enter
    | apply fof_total; intros ?; eexists _, _; reflexivity
    | apply fof_bind; [| intros ?] ].

Lemma fof_draw_topology (graph_type title : string) (ax : nat) :
  In graph_type variants ->
  fails_only_by_fault fault (draw_topology fault graph_type title ax).
Proof.
  intros Hv. apply variants_cases in Hv.
  destruct ring_layout_points as (a & b & c & d & e & Hring).
  unfold draw_topology,
    nx_draw_networkx_nodes, nx_draw_networkx_edges, nx_draw_networkx_labels,
    ax_set_title, ax_axis_off, add_artist.
  destruct Hv as [-> | [-> | ->]].
  - change (draw_topology_locals "linear") with
      {| G := graph_of "linear"; pos := layout_of "linear" |}.
    cbn [G pos]. rewrite linear_nodes, linear_edges.
    change (layout_of "linear") with
      (Some [(0, nx.xy 4 0); (1, nx.xy 3 1); (2, nx.xy 2 2); (3, nx.xy 1 1);
             (4, nx.xy 0 0)]).
    cbn [list_comp pos_get dict_get Z.eqb Pos.eqb fst snd for_each].
    only_faults.
  - change (draw_topology_locals "ring") with
      {| G := graph_of "ring"; pos := Some (nx.circular_layout (graph_of "ring")) |}.
    cbn [G pos]. rewrite Hring, ring_nodes, ring_edges.
    cbn [list_comp pos_get dict_get Z.eqb Pos.eqb fst snd for_each].
    only_faults.
  - change (draw_topology_locals "star") with
      {| G := graph_of "star"; pos := layout_of "star" |}.
    cbn [G pos]. rewrite star_nodes, star_edges.
    change (layout_of "star") with
      (Some [(0, nx.xy 0 0); (1, nx.xy 1 1); (2, nx.xy 1 (-1)); (3, nx.xy (-1) (-1));
             (4, nx.xy (-1) 1)]).
    cbn [list_comp pos_get dict_get Z.eqb Pos.eqb fst snd for_each].
    only_faults.
Qed.

Lemma fof_render_and_save (graph_type title fname : string) :
  In graph_type variants ->
  fails_only_by_fault fault (render_and_save fault graph_type title fname).
Proof.
  intros Hv. unfold render_and_save.
  apply fof_bind.
  { unfold plt_subplots, get_world. only_faults. }
  intros [fig ax].
  apply fof_bind; [apply fof_draw_topology, Hv | intros _].
  unfold fig_savefig, print. only_faults.
Qed.

End fails_only_by_fault_facts.

(** In the model, a run raises only what the environment made a library
    call raise, and stops at that call. *)
Lemma main_fails_only_by_fault (fault : call -> World -> option exn) :
  fails_only_by_fault fault (main fault).
Proof.
  intros w e w' Hrun. rewrite main_blocks in Hrun. revert w e w' Hrun.
  change (fails_only_by_fault fault
            (render_and_save fault "linear" "Linear Topology" "linear_topology.png";;
             render_and_save fault "ring" "Ring Topology" "ring_topology.png";;
             render_and_save fault "star" "Star Topology" "star_topology.png")%py).
  apply fof_bind; [apply fof_render_and_save; simpl; auto | intros _].
  apply fof_bind; [apply fof_render_and_save; simpl; auto | intros _].
  apply fof_render_and_save; simpl; auto.
Qed.

(** X4.  The statements of lines 36 to 52 never make [draw_topology] fail
    by itself.  If the library calls fail only with errors of their own, then
    whatever a run raises is such an error: no run reads [pos] unbound, and
    no draw call meets a node without a position, because [draw_topology] is
    only called with the three topologies it knows and their layouts cover
    their graphs. *)
Theorem run_never_raises_a_failure_of_draw_topology
    (fault : call -> World -> option exn) (w w' : World) (e : exn) :
  (forall c w0 e0, fault c w0 = Some e0 -> own_failure e0 = false) ->
  main fault w = (Raise e, w') ->
  own_failure e = false.
Proof.
  intros Hfault Hrun.
  destruct (main_fails_only_by_fault fault w e w' Hrun) as (c & w0 & Hc & _).
  exact (Hfault c w0 e Hc).
Qed.

Lemma ring_write_fails_run :
  main ring_write_fails (initial_world ∅) =
    (Raise (LibraryError "OSError"), snd (main ring_write_fails (initial_world ∅))).
Proof.
  destruct ring_layout_points as (a & b & c & d & e & Hring).
  unfold main, draw_topology.
  change (draw_topology_locals "ring") with
    {| G := graph_of "ring"; pos := Some (nx.circular_layout (graph_of "ring")) |}.
  rewrite Hring. cbv -[insert IZR]. reflexivity.
Qed.

Lemma run_never_raises_a_failure_of_draw_topology_witness :
  (forall c w0 e0, ring_write_fails c w0 = Some e0 -> own_failure e0 = false) /\
  main ring_write_fails (initial_world ∅) =
    (Raise (LibraryError "OSError"), snd (main ring_write_fails (initial_world ∅))) /\
  own_failure (LibraryError "OSError") = false.
Proof.
  assert (Hfault : forall c w0 e0,
             ring_write_fails c w0 = Some e0 -> own_failure e0 = false).
  { intros c w0 e0. unfold ring_write_fails.
    destruct c; try discriminate.
    destruct (String.eqb fname "ring_topology.png"); [| discriminate].
    intros H. injection H as <-. reflexivity. }
  split; [exact Hfault |].
  split; [exact ring_write_fails_run |].
  exact (run_never_raises_a_failure_of_draw_topology ring_write_fails _ _ _
           Hfault ring_write_fails_run).
Defined.

(** ** What the files hold and what the console tells *)

Lemma Forall2_functional {A B} (P : A -> B -> Prop) (l : list A) (k k' : list B) :
  (forall a b b', P a b -> P a b' -> b = b') ->
  Forall2 P l k -> Forall2 P l k' -> k = k'.
Proof.
  intros HP H. revert k'. induction H as [| a b l k Hab _ IH]; intros k' H'.
  - inversion H'. reflexivity.
  - inversion H' as [| a' b' l' k'' Hab' Hrest]; subst.
    f_equal; [exact (HP a b b' Hab Hab') | exact (IH _ Hrest)].
Qed.

(** A graph and a layout have one drawing. *)
Lemma drawing_of_unique (g : nx.Graph) (pos : nx.layout) (title : string)
    (x x' : plt.Axes) :
  drawing_of g pos title x -> drawing_of g pos title x' -> x = x'.
Proof.
  intros (pts & segs & Hp & Hs & Ha & Ht & Hx)
         (pts' & segs' & Hp' & Hs' & Ha' & Ht' & Hx').
  assert (Epts : pts = pts').
  { refine (Forall2_functional _ _ _ _ _ Hp Hp').
    intros v p p' H H'. congruence. }
  assert (Esegs : segs = segs').
  { refine (Forall2_functional _ _ _ _ _ Hs Hs').
    intros ed [p q] [p' q']. cbn [fst snd]. intros (H1 & H2) (H1' & H2').
    congruence. }
  subst pts' segs'. destruct x, x'. cbn in *. congruence.
Qed.

(** A topology has one figure. *)
Lemma is_figure_of_unique (graph_type title : string) (img img' : plt.Image) :
  is_figure_of graph_type title img -> is_figure_of graph_type title img' ->
  img = img'.
Proof.
  intros (Hs & pos & Hpos & Hd) (Hs' & pos' & Hpos' & Hd').
  assert (pos' = pos) by congruence. subst pos'.
  pose proof (drawing_of_unique _ _ _ _ _ Hd Hd') as E.
  destruct img, img'. cbn in *. congruence.
Qed.

(** The three paragraphs when nothing fails, one after the other, and the
    figures they save. *)
Lemma paragraphs_no_fault_figures :
  exists img1 img2 img3 : plt.Image,
    (forall fs, exists w1 w2 w3,
       render_and_save no_fault "linear" "Linear Topology" "linear_topology.png"
         (initial_world fs) = (Ok tt, w1) /\
       render_and_save no_fault "ring" "Ring Topology" "ring_topology.png" w1
         = (Ok tt, w2) /\
       render_and_save no_fault "star" "Star Topology" "star_topology.png" w2
         = (Ok tt, w3) /\
       (files w1 = <["linear_topology.png" := img1]> fs /\
        stdout w1 = ["Saved linear_topology.png"]) /\
       (files w2 = <["ring_topology.png" := img2]>
                     (<["linear_topology.png" := img1]> fs) /\
        stdout w2 = ["Saved linear_topology.png"; "Saved ring_topology.png"]) /\
       (files w3 = <["star_topology.png" := img3]>
                     (<["ring_topology.png" := img2]>
                        (<["linear_topology.png" := img1]> fs)) /\
        stdout w3 = ["Saved linear_topology.png"; "Saved ring_topology.png";
                     "Saved star_topology.png"])) /\
    (is_topology_figure "Linear Topology" 4 img1 /\
     is_topology_figure "Ring Topology" 5 img2 /\
     is_topology_figure "Star Topology" 4 img3) /\
    (is_figure_of "linear" "Linear Topology" img1 /\
     is_figure_of "ring" "Ring Topology" img2 /\
     is_figure_of "star" "Star Topology" img3).
Proof.
  destruct ring_layout_points as (a & b & c & d & e & Hring).
  do 3 eexists. split; [| split].
  - intros fs. do 3 eexists.
    unfold render_and_save, draw_topology.
    change (draw_topology_locals "ring") with
      {| G := graph_of "ring"; pos := Some (nx.circular_layout (graph_of "ring")) |}.
    rewrite Hring.
    split; [cbv -[insert IZR]; reflexivity |].
    split; [cbv -[insert IZR]; reflexivity |].
    split; [cbv -[insert IZR]; reflexivity |].
    cbn [files stdout]. repeat split; reflexivity.
  - unfold is_topology_figure. cbn [plt.img_size plt.img_axes plt.title plt.axison
                                    plt.artists].
    split; [| split];
      (split; [reflexivity | split; [reflexivity | split; [reflexivity |]]];
       do 6 eexists; (split; [| reflexivity]); reflexivity).
  - unfold is_figure_of, drawing_of.
    cbn [plt.img_size plt.img_axes plt.title plt.axison plt.artists].
    split; [| split].
    + split; [reflexivity |].
      exists [(0, nx.xy 4 0); (1, nx.xy 3 1); (2, nx.xy 2 2); (3, nx.xy 1 1);
              (4, nx.xy 0 0)].
      split; [reflexivity |]. rewrite linear_nodes, linear_edges.
      exists [nx.xy 4 0; nx.xy 3 1; nx.xy 2 2; nx.xy 1 1; nx.xy 0 0],
             [(nx.xy 4 0, nx.xy 3 1); (nx.xy 3 1, nx.xy 2 2);
              (nx.xy 2 2, nx.xy 1 1); (nx.xy 1 1, nx.xy 0 0)].
      split; [repeat (constructor; [reflexivity |]); constructor |].
      split; [repeat (constructor; [split; reflexivity |]); constructor |].
      split; [reflexivity | split; reflexivity].
    + split; [reflexivity |].
      exists (nx.circular_layout (graph_of "ring")).
      split; [reflexivity |]. rewrite Hring, ring_nodes, ring_edges.
      exists [a; b; c; d; e], [(a, b); (a, e); (b, c); (c, d); (d, e)].
      split; [repeat (constructor; [reflexivity |]); constructor |].
      split; [repeat (constructor; [split; reflexivity |]); constructor |].
      split; [reflexivity | split; reflexivity].
    + split; [reflexivity |].
      exists [(0, nx.xy 0 0); (1, nx.xy 1 1); (2, nx.xy 1 (-1)); (3, nx.xy (-1) (-1));
              (4, nx.xy (-1) 1)].
      split; [reflexivity |]. rewrite star_nodes, star_edges.
      exists [nx.xy 0 0; nx.xy 1 1; nx.xy 1 (-1); nx.xy (-1) (-1); nx.xy (-1) 1],
             [(nx.xy 0 0, nx.xy 1 1); (nx.xy 0 0, nx.xy 1 (-1));
              (nx.xy 0 0, nx.xy (-1) (-1)); (nx.xy 0 0, nx.xy (-1) 1)].
      split; [repeat (constructor; [reflexivity |]); constructor |].
      split; [repeat (constructor; [split; reflexivity |]); constructor |].
      split; [reflexivity | split; reflexivity].
Qed.


(** X5.  After a run that completed, each of the three files holds the
    figure of its own topology and nothing else: a 5 by 5 figure with its
    title and the axis off, whose artists are, in this order, the node
    collection (size 700, light blue) over the positions that the layout of
    this topology gives to the nodes of its graph, the edge collection
    (width 2, gray) with one segment per edge of its graph, between the
    positions of the two ends, and one label per node (size 12, sans-serif),
    the number of the node at the position of the node.  The topology
    determines the figure: no other image is the figure of that topology. *)
Theorem saved_figures_hold_their_own_topology
    (fault : call -> World -> option exn) (fs : gmap string plt.Image) (w : World) :
  main fault (initial_world fs) = (Ok tt, w) ->
  exists img1 img2 img3,
    (files w !! "linear_topology.png" = Some img1 /\
     files w !! "ring_topology.png" = Some img2 /\
     files w !! "star_topology.png" = Some img3) /\
    (is_figure_of "linear" "Linear Topology" img1 /\
     is_figure_of "ring" "Ring Topology" img2 /\
     is_figure_of "star" "Star Topology" img3) /\
    (forall img, is_figure_of "linear" "Linear Topology" img -> img = img1) /\
    (forall img, is_figure_of "ring" "Ring Topology" img -> img = img2) /\
    (forall img, is_figure_of "star" "Star Topology" img -> img = img3).
Proof.
  intros Hrun. apply succeeds_as_main in Hrun.
  destruct paragraphs_no_fault_figures
    as (img1 & img2 & img3 & Hruns & _ & F1 & F2 & F3).
  destruct (Hruns fs) as (w1 & w2 & w3 & H1 & H2 & H3 & _ & _ & (Hf & _)).
  rewrite main_blocks in Hrun.
  rewrite (bind_ok _ _ _ _ _ H1), (bind_ok _ _ _ _ _ H2), H3 in Hrun.
  injection Hrun as <-.
  exists img1, img2, img3. rewrite Hf.
  clear Hruns H1 H2 H3.
  split.
  { split; [do 2 (rewrite lookup_insert_ne by (apply String.eqb_neq; reflexivity));
            apply lookup_insert_eq |].
    split; [rewrite lookup_insert_ne by (apply String.eqb_neq; reflexivity);
            apply lookup_insert_eq |].
    apply lookup_insert_eq. }
  split; [split; [exact F1 | split; [exact F2 | exact F3]] |].
  split; [intros img H; exact (is_figure_of_unique _ _ _ _ H F1) |].
  split; [intros img H; exact (is_figure_of_unique _ _ _ _ H F2) |].
  intros img H; exact (is_figure_of_unique _ _ _ _ H F3).
Qed.

Lemma saved_figures_hold_their_own_topology_witness :
  main no_fault (initial_world ∅) = (Ok tt, snd (main no_fault (initial_world ∅))) /\
  exists img3,
    files (snd (main no_fault (initial_world ∅))) !! "star_topology.png" = Some img3 /\
    is_figure_of "star" "Star Topology" img3.
Proof.
  split; [apply no_fault_run_succeeds |].
  destruct (saved_figures_hold_their_own_topology no_fault ∅ _
              (no_fault_run_succeeds ∅))
    as (img1 & img2 & img3 & (_ & _ & H3) & (_ & _ & F3) & _).
  exists img3. split; assumption.
Defined.

Section console_facts.

Variable fault : call -> World -> option exn.











End console_facts.



(** ** The graph that [add_edges_from] builds, for any list of edges *)

Lemma dict_get_set_eq {V} (d : list (Z * V)) (k : Z) (v : V) :
  dict_get (dict_set d k v) k = Some v.
Proof.
  induction d as [| [k' v'] d IH]; cbn [dict_set dict_get].
  - rewrite Z.eqb_refl. reflexivity.
  - destruct (Z.eqb_spec k' k) as [-> | Hne]; cbn [dict_get].
    + rewrite Z.eqb_refl. reflexivity.
    + destruct (Z.eqb_spec k' k); [contradiction | exact IH].
Qed.

Lemma dict_get_set_ne {V} (d : list (Z * V)) (k k0 : Z) (v : V) :
  k <> k0 -> dict_get (dict_set d k v) k0 = dict_get d k0.
Proof.
  intros Hne. induction d as [| [k' v'] d IH]; cbn [dict_set dict_get].
  - destruct (Z.eqb_spec k k0); [contradiction | reflexivity].
  - destruct (Z.eqb_spec k' k) as [-> | Hne']; cbn [dict_get].
    + destruct (Z.eqb_spec k k0); [contradiction | reflexivity].
    + destruct (Z.eqb_spec k' k0); [reflexivity | exact IH].
Qed.

Lemma mem_In (u : Z) (l : list Z) : nx.mem u l = true <-> In u l.
Proof.
  unfold nx.mem. rewrite existsb_exists. split.
  - intros (x & Hx & E). apply Z.eqb_eq in E. subst. exact Hx.
  - intros H. exists u. split; [exact H | apply Z.eqb_refl].
Qed.

Lemma mem_app (u : Z) (l k : list Z) : nx.mem u (l ++ k) = nx.mem u l || nx.mem u k.
Proof. unfold nx.mem. apply existsb_app. Qed.

Lemma has_edge_set_adj (g : nx.Graph) (u v x y : Z) :
  nx.has_edge (nx.set_adj u v g) x y =
  nx.has_edge g x y || (Z.eqb x u && Z.eqb y v).
Proof.
  unfold nx.has_edge, nx.set_adj, nx.neighbors. cbn [nx.adj].
  destruct (Z.eqb_spec x u) as [-> | Hne]; cbn [andb].
  - rewrite dict_get_set_eq.
    change (nx.mem y (if nx.mem v (default [] (dict_get (nx.adj g) u))
                      then default [] (dict_get (nx.adj g) u)
                      else default [] (dict_get (nx.adj g) u) ++ [v]) =
            nx.mem y (default [] (dict_get (nx.adj g) u)) || Z.eqb y v).
    set (N := default [] (dict_get (nx.adj g) u)).
    destruct (nx.mem v N) eqn:Hv.
    + destruct (Z.eqb_spec y v) as [-> | _].
      * rewrite Hv. reflexivity.
      * rewrite orb_false_r. reflexivity.
    + rewrite mem_app. f_equal. unfold nx.mem. cbn [existsb].
      apply orb_false_r.
  - rewrite dict_get_set_ne by congruence. rewrite orb_false_r. reflexivity.
Qed.

Lemma nodes_add_node_if_new (g : nx.Graph) (u x : Z) :
  In x (nx.nodes (nx.add_node_if_new u g)) <-> x = u \/ In x (nx.nodes g).
Proof.
  unfold nx.add_node_if_new. destruct (nx.mem u (nx.nodes g)) eqn:Hm.
  - apply mem_In in Hm. split; [auto | intros [-> | H]; assumption].
  - cbn [nx.nodes]. rewrite in_app_iff. simpl. split.
    + intros [H | [H | []]]; auto.
    + intros [-> | H]; auto.
Qed.

Lemma neighbors_add_node_if_new (g : nx.Graph) (u x : Z) :
  well_keyed g ->
  nx.neighbors (nx.add_node_if_new u g) x = nx.neighbors g x.
Proof.
  intros Hk. unfold nx.add_node_if_new.
  destruct (nx.mem u (nx.nodes g)) eqn:Hm; [reflexivity |].
  unfold nx.neighbors. cbn [nx.adj].
  destruct (Z.eq_dec u x) as [-> | Hne].
  - rewrite dict_get_set_eq, Hk; [reflexivity |].
    intros Hin. apply mem_In in Hin. congruence.
  - rewrite dict_get_set_ne by exact Hne. reflexivity.
Qed.

Lemma well_keyed_add_node_if_new (g : nx.Graph) (u : Z) :
  well_keyed g -> well_keyed (nx.add_node_if_new u g).
Proof.
  intros Hk k Hnot.
  assert (Hu : k <> u /\ ~ In k (nx.nodes g)).
  { split; intros H; apply Hnot, nodes_add_node_if_new; auto. }
  destruct Hu as (Hne & Hk').
  unfold nx.add_node_if_new.
  destruct (nx.mem u (nx.nodes g)); [exact (Hk k Hk') |].
  cbn [nx.adj]. rewrite dict_get_set_ne by congruence. exact (Hk k Hk').
Qed.

Lemma well_keyed_set_adj (g : nx.Graph) (u v : Z) :
  In u (nx.nodes g) -> well_keyed g -> well_keyed (nx.set_adj u v g).
Proof.
  intros Hu Hk k Hnot. unfold nx.set_adj in *. cbn [nx.nodes nx.adj] in *.
  rewrite dict_get_set_ne; [exact (Hk k Hnot) |].
  intros ->. exact (Hnot Hu).
Qed.

Lemma NoDup_add_node_if_new (g : nx.Graph) (u : Z) :
  NoDup (nx.nodes g) -> NoDup (nx.nodes (nx.add_node_if_new u g)).
Proof.
  intros Hnd. unfold nx.add_node_if_new.
  destruct (nx.mem u (nx.nodes g)) eqn:Hm; [exact Hnd |].
  cbn [nx.nodes]. apply NoDup_app. split; [exact Hnd | split].
  - intros x Hx Hx'. apply list_elem_of_singleton in Hx'. subst x.
    apply list_elem_of_In, mem_In in Hx. congruence.
  - apply NoDup_singleton.
Qed.

(** What one iteration of the loop does. *)
Lemma add_edge_facts (g : nx.Graph) (u v : Z) :
  well_keyed g -> NoDup (nx.nodes g) ->
  let g' := nx.add_edge g (u, v) in
  well_keyed g' /\ NoDup (nx.nodes g') /\
  (forall x, In x (nx.nodes g') <-> x = u \/ x = v \/ In x (nx.nodes g)) /\
  (forall x y, nx.has_edge g' x y =
               nx.has_edge g x y || (Z.eqb x u && Z.eqb y v)
                                 || (Z.eqb x v && Z.eqb y u)).
Proof.
  intros Hk Hnd. cbn [nx.add_edge].
  set (g1 := nx.add_node_if_new u g).
  set (g2 := nx.add_node_if_new v g1).
  assert (Hk2 : well_keyed g2) by (apply well_keyed_add_node_if_new, well_keyed_add_node_if_new, Hk).
  assert (Hn2 : forall x, In x (nx.nodes g2) <-> x = u \/ x = v \/ In x (nx.nodes g)).
  { intros x. unfold g2, g1. rewrite !nodes_add_node_if_new. tauto. }
  assert (Hnd2 : NoDup (nx.nodes g2)) by (apply NoDup_add_node_if_new, NoDup_add_node_if_new, Hnd).
  assert (Hu2 : In u (nx.nodes g2)) by (apply Hn2; auto).
  assert (Hv2 : In v (nx.nodes g2)) by (apply Hn2; auto).
  split; [| split; [| split]].
  - apply well_keyed_set_adj; [exact Hv2 |].
    apply well_keyed_set_adj; [exact Hu2 | exact Hk2].
  - exact Hnd2.
  - exact Hn2.
  - intros x y. rewrite !has_edge_set_adj. unfold nx.has_edge at 1.
    unfold g2. rewrite neighbors_add_node_if_new
      by (apply well_keyed_add_node_if_new, Hk).
    unfold g1. rewrite neighbors_add_node_if_new by exact Hk.
    reflexivity.
Qed.

Lemma add_edges_from_facts (es : list (Z * Z)) :
  forall g, well_keyed g -> NoDup (nx.nodes g) ->
  let g' := nx.add_edges_from es g in
  well_keyed g' /\ NoDup (nx.nodes g') /\
  (forall x, In x (nx.nodes g') <-> In x (endpoints es) \/ In x (nx.nodes g)) /\
  (forall x y, nx.has_edge g' x y = true <->
               nx.has_edge g x y = true \/ undirected_in x y es).
Proof.
  unfold nx.add_edges_from.
  induction es as [| [u v] es IH]; intros g Hk Hnd; cbn [fold_left].
  - split; [exact Hk | split; [exact Hnd | split]].
    + intros x. simpl. tauto.
    + intros x y. unfold undirected_in. simpl. tauto.
  - destruct (add_edge_facts g u v Hk Hnd) as (Hk1 & Hnd1 & Hn1 & He1).
    destruct (IH _ Hk1 Hnd1) as (Hk2 & Hnd2 & Hn2 & He2).
    split; [exact Hk2 | split; [exact Hnd2 | split]].
    + intros x. rewrite Hn2, Hn1. unfold endpoints. cbn [flat_map fst snd].
      simpl. intuition congruence.
    + intros x y. rewrite He2, He1.
      rewrite !orb_true_iff, !andb_true_iff, !Z.eqb_eq.
      unfold undirected_in. simpl. split.
      * intros [[[H | [-> ->]] | [-> ->]] | [H | H]]; auto.
      * intros [H | [[E | H] | [E | H]]]; auto;
          injection E as <- <-; auto.
Qed.

(** X7.  For any list of edges, the graph that [G.add_edges_from(edges)]
    builds from the empty graph has an edge between two nodes exactly when
    the list has the pair, in one orientation or the other; so adjacency is
    symmetric, and the graph of an empty list has no edge. *)
Theorem add_edges_from_builds_the_undirected_edges (es : list (Z * Z)) (u v : Z) :
  (adjacent (nx.add_edges_from es nx.empty) u v <-> undirected_in u v es) /\
  (adjacent (nx.add_edges_from es nx.empty) u v <->
   adjacent (nx.add_edges_from es nx.empty) v u).
Proof.
  assert (Hk : well_keyed nx.empty) by (intros k _; reflexivity).
  assert (Hnd : NoDup (nx.nodes nx.empty)) by apply NoDup_nil_2.
  destruct (add_edges_from_facts es nx.empty Hk Hnd) as (_ & _ & _ & He).
  assert (H : forall x y, adjacent (nx.add_edges_from es nx.empty) x y <->
                          undirected_in x y es).
  { intros x y. unfold adjacent. rewrite He. split; [| auto].
    intros [H | H]; [discriminate | exact H]. }
  split; [apply H |].
  rewrite !H. unfold undirected_in. tauto.
Qed.

Lemma undirected_in_endpoints (u v : Z) (es : list (Z * Z)) :
  undirected_in u v es -> In u (endpoints es) /\ In v (endpoints es).
Proof.
  assert (H : forall a b, In (a, b) es -> In a (endpoints es) /\ In b (endpoints es)).
  { intros a b Hin. unfold endpoints.
    split; apply in_flat_map; exists (a, b); (split; [exact Hin |]); simpl; auto. }
  unfold undirected_in. intros [Hin | Hin]; apply H in Hin; tauto.
Qed.

(** X8.  For any list of edges, the nodes of the graph built by
    [G.add_edges_from(edges)] are exactly the endpoints of the edges, each
    node once, and every edge of the graph joins two nodes of the graph. *)
Theorem add_edges_from_nodes_are_the_endpoints (es : list (Z * Z)) :
  NoDup (nx.nodes (nx.add_edges_from es nx.empty)) /\
  (forall x, In x (nx.nodes (nx.add_edges_from es nx.empty)) <-> In x (endpoints es)) /\
  (forall u v, adjacent (nx.add_edges_from es nx.empty) u v ->
               In u (nx.nodes (nx.add_edges_from es nx.empty)) /\
               In v (nx.nodes (nx.add_edges_from es nx.empty))).
Proof.
  assert (Hk : well_keyed nx.empty) by (intros k _; reflexivity).
  assert (Hnd : NoDup (nx.nodes nx.empty)) by apply NoDup_nil_2.
  destruct (add_edges_from_facts es nx.empty Hk Hnd) as (_ & Hnd' & Hn & He).
  assert (Hn' : forall x, In x (nx.nodes (nx.add_edges_from es nx.empty)) <->
                          In x (endpoints es)).
  { intros x. rewrite Hn. simpl. tauto. }
  split; [exact Hnd' | split; [exact Hn' |]].
  intros u v Huv. unfold adjacent in Huv. apply He in Huv.
  destruct Huv as [H | H]; [discriminate |].
  apply undirected_in_endpoints in H. rewrite !Hn'. exact H.
Qed.

Lemma add_edges_from_nodes_are_the_endpoints_witness :
  adjacent (nx.add_edges_from [(0, 1); (0, 2)] nx.empty) 2 0 /\
  In 2 (nx.nodes (nx.add_edges_from [(0, 1); (0, 2)] nx.empty)).
Proof.
  assert (H : adjacent (nx.add_edges_from [(0, 1); (0, 2)] nx.empty) 2 0)
    by reflexivity.
  split; [exact H |].
  exact (proj1 (proj2 (proj2 (add_edges_from_nodes_are_the_endpoints [(0, 1); (0, 2)]))
                  2 0 H)).
Defined.

(** ** The circular layout, for any graph *)

Lemma map_fst_combine {A B} (l : list A) (l' : list B) :
  length l = length l' -> map fst (combine l l') = l.
Proof.
  revert l'. induction l as [| x l IH]; intros [| y l'] Hlen;
    try discriminate; cbn [combine map fst]; [reflexivity |].
  f_equal. apply IH. simpl in Hlen. lia.
Qed.

Lemma dict_get_keys {V} (d : list (Z * V)) (k : Z) :
  In k (map fst d) -> exists v, dict_get d k = Some v.
Proof.
  induction d as [| [k' v'] d IH]; cbn [map fst In dict_get]; [contradiction |].
  intros Hin. destruct (Z.eqb_spec k' k) as [_ | Hne]; [eauto |].
  destruct Hin as [E | Hin]; [contradiction | exact (IH Hin)].
Qed.

Lemma rescale_layout_length (pts : list nx.point) :
  length (nx.rescale_layout pts 1) = length pts.
Proof. rewrite rescale_layout_eq. apply length_map. Qed.

Lemma theta_length (n : nat) : length (nx.theta n) = n.
Proof. unfold nx.theta. rewrite length_map. apply length_seq. Qed.

Lemma circular_layout_keys (g : nx.Graph) :
  map fst (nx.circular_layout g) = nx.nodes g.
Proof.
  unfold nx.circular_layout, nx.len.
  destruct (nx.nodes g) as [| v1 [| v2 l]] eqn:E; try reflexivity.
  apply map_fst_combine.
  rewrite length_map, rescale_layout_length, length_map, theta_length.
  reflexivity.
Qed.

(** X9.  For any graph, the circular layout has exactly the nodes of the
    graph as its keys, in the order of the graph: every node has a position,
    so that looking up the position of a node never fails.  The layout of
    the empty graph is empty, and a single node is placed at the centre
    (0, 0). *)
Theorem circular_layout_places_every_node (g : nx.Graph) :
  map fst (nx.circular_layout g) = nx.nodes g /\
  covers (nx.circular_layout g) g /\
  (forall v, In v (nx.nodes g) -> exists p, pos_get (nx.circular_layout g) v = Ok p) /\
  (nx.nodes g = [] -> nx.circular_layout g = []) /\
  (forall v, nx.nodes g = [v] -> nx.circular_layout g = [(v, nx.xy 0 0)]).
Proof.
  assert (Hc : covers (nx.circular_layout g) g).
  { intros v Hv. apply dict_get_keys. rewrite circular_layout_keys. exact Hv. }
  split; [apply circular_layout_keys | split; [exact Hc | split; [| split]]].
  - intros v Hv. destruct (Hc v Hv) as (p & Hp). exists p.
    unfold pos_get. rewrite Hp. reflexivity.
  - intros E. unfold nx.circular_layout. rewrite E. reflexivity.
  - intros v E. unfold nx.circular_layout. rewrite E. reflexivity.
Qed.

Lemma circular_layout_places_every_node_witness :
  In 3 (nx.nodes (graph_of "ring")) /\
  exists p, pos_get (nx.circular_layout (graph_of "ring")) 3 = Ok p.
Proof.
  assert (Hv : In 3 (nx.nodes (graph_of "ring"))) by (rewrite ring_nodes; simpl; auto).
  split; [exact Hv |].
  exact (proj1 (proj2 (proj2 (circular_layout_places_every_node (graph_of "ring"))))
           3 Hv).
Defined.

Lemma Rmaximum_nonneg (l : list R) : (0 <= nx.Rmaximum l)%R.
Proof.
  induction l as [| x l IH]; cbn [nx.Rmaximum fold_right]; [lra |].
  fold (nx.Rmaximum l). pose proof (Rmax_r x (nx.Rmaximum l)). lra.
Qed.

Lemma Rmaximum_ge (l : list R) (x : R) : In x l -> (x <= nx.Rmaximum l)%R.
Proof.
  induction l as [| y l IH]; cbn [In nx.Rmaximum fold_right]; [contradiction |].
  fold (nx.Rmaximum l). intros [-> | Hin].
  - apply Rmax_l.
  - pose proof (Rmax_r y (nx.Rmaximum l)). specialize (IH Hin). lra.
Qed.

Lemma abs_max_ge (pts : list nx.point) (p : nx.point) :
  In p pts ->
  (Rabs (fst p) <= nx.abs_max pts)%R /\ (Rabs (snd p) <= nx.abs_max pts)%R.
Proof.
  intros Hin. unfold nx.abs_max.
  split; apply Rmaximum_ge, in_flat_map; exists p; (split; [exact Hin |]);
    simpl; auto.
Qed.

Lemma rescale_layout_bounds (pts : list nx.point) (q : nx.point) :
  In q (nx.rescale_layout pts 1) ->
  (Rabs (fst q) <= 1)%R /\ (Rabs (snd q) <= 1)%R.
Proof.
  unfold nx.rescale_layout. fold (centered pts).
  set (lim := nx.abs_max (centered pts)).
  destruct (Rlt_dec 0 lim) as [Hlt | Hge].
  - intros Hin. apply in_map_iff in Hin. destruct Hin as (p & <- & Hp).
    destruct (abs_max_ge _ _ Hp) as (H1 & H2). fold lim in H1, H2.
    cbn [fst snd].
    assert (Hb : forall x : R, (Rabs x <= lim)%R -> (Rabs (x * (1 / lim)) <= 1)%R).
    { intros x Hx. rewrite Rabs_mult.
      rewrite (Rabs_pos_eq (1 / lim))
        by (apply Rlt_le, Rdiv_lt_0_compat; [lra | exact Hlt]).
      apply (Rmult_le_reg_r lim); [exact Hlt |]. field_simplify; lra. }
    split; apply Hb; assumption.
  - intros Hin. destruct (abs_max_ge _ _ Hin) as (H1 & H2). fold lim in H1, H2.
    split; lra.
Qed.

(** X11.  For any graph, every position of the circular layout lies in the
    square from -1 to 1 in both coordinates, which is the scale that
    [draw_topology] leaves at its default. *)
Theorem circular_layout_fits_the_unit_square (g : nx.Graph) :
  Forall (fun vp : Z * nx.point =>
            (Rabs (fst (snd vp)) <= 1)%R /\ (Rabs (snd (snd vp)) <= 1)%R)
         (nx.circular_layout g).
Proof.
  apply List.Forall_forall. intros [v p] Hin. cbn [fst snd].
  unfold nx.circular_layout in Hin.
  destruct (nx.nodes g) as [| v1 [| v2 l]].
  - contradiction.
  - destruct Hin as [E | []]. injection E as _ <-. cbn [fst snd].
    rewrite Rabs_R0. split; lra.
  - apply in_combine_r in Hin. apply in_map_iff in Hin.
    destruct Hin as (q & <- & Hq). cbn [fst snd].
    destruct (rescale_layout_bounds _ _ Hq) as (H1 & H2).
    rewrite !Rplus_0_r. split; assumption.
Qed.
